(** * react-mcp: the process supervisor of [index.js]

    A shallow embedding of the tool handlers of [index.js] and of the
    registry [runningProcesses] they share.  The handlers are translated
    statement by statement into a state-and-exception monad; the Node
    runtime they call (child processes, the file system, [exec],
    [Math.random], the clock) is the environment: its answers are inputs of
    the handlers and its callbacks are events of a trace.

    The two file tools ([edit-file], [read-file]) and the log written by
    [logToFile] never touch [runningProcesses] nor a child process; they
    are not part of the model.  Arguments are the ones the zod schemas let
    through. *)

From Stdlib Require Import String Ascii List ZArith Bool Lia DecimalString.
Import ListNotations.
Local Open Scope string_scope.
Set Warnings "-register-all".

(** ** JavaScript values used by the handlers *)

Module Js.

(** [!s] on a string: only the empty string is falsy. *)
Definition falsy (s : string) : bool :=
  match s with EmptyString => true | _ => false end.

(** [x || d] where [x] is an optional string ([None] is [undefined]). *)
Definition or_else (x : option string) (d : string) : string :=
  match x with
  | Some s => if falsy s then d else s
  | None => d
  end.

(** [x ? a(x) : b] where [x] is an optional string. *)
Definition if_truthy {A} (x : option string) (a : string -> A) (b : A) : A :=
  match x with
  | Some s => if falsy s then b else a s
  | None => b
  end.

(** A string between double quotes, as a template literal prints it. *)
Definition quoted (s : string) : string :=
  String (ascii_of_nat 34) (s ++ String (ascii_of_nat 34) EmptyString).

(** [args.join(sep)]. *)
Definition join (sep : string) (l : list string) : string := String.concat sep l.

(** [s.substring(from, to)] with [from <= to]; indexes past the end are
    clamped, as [String.substring] does. *)
Definition substring (from to : nat) (s : string) : string :=
  String.substring from (to - from) s.

(** Decimal rendering of an integer inside a template literal. *)
Definition of_Z (z : Z) : string := NilEmpty.string_of_int (Z.to_int z).

(** The values [JSON.parse] produces.  Numbers are read by the handlers
    through their truthiness only. *)
Inductive json :=
| JNull
| JBool (b : bool)
| JNum (n : Z)
| JStr (s : string)
| JArr (l : list json)
| JObj (fields : list (string * json)).

(** Own property of a parsed object: the last binding of a repeated key
    wins. *)
Fixpoint field (k : string) (fields : list (string * json)) : option json :=
  match fields with
  | [] => None
  | (k', v) :: rest =>
    match field k rest with
    | Some w => Some w
    | None => if String.eqb k k' then Some v else None
    end
  end.

(** [v.k] for a key that no prototype defines: [None] is a [TypeError]
    (the receiver is [null]), [Some None] is [undefined]. *)
Definition get (v : json) (k : string) : option (option json) :=
  match v with
  | JNull => None
  | JObj fields => Some (field k fields)
  | _ => Some None
  end.

(** Truthiness of an optional value ([None] is [undefined]). *)
Definition truthy (v : option json) : bool :=
  match v with
  | None => false
  | Some JNull => false
  | Some (JBool b) => b
  | Some (JNum n) => negb (Z.eqb n 0)
  | Some (JStr s) => negb (falsy s)
  | Some (JArr _) => true
  | Some (JObj _) => true
  end.

End Js.

(** ** The insertion-ordered [Map] of JavaScript *)

Module JsMap.
Section Map.
Context {V : Type}.

Definition t := list (string * V).

Definition empty : t := [].

(** [m.set(k, v)]: an existing key keeps its place and takes the new
    value, a new key goes last. *)
Fixpoint set (k : string) (v : V) (m : t) : t :=
  match m with
  | [] => [(k, v)]
  | (k', v') :: m' =>
      if String.eqb k k' then (k, v) :: m' else (k', v') :: set k v m'
  end.

Fixpoint get (k : string) (m : t) : option V :=
  match m with
  | [] => None
  | (k', v') :: m' => if String.eqb k k' then Some v' else get k m'
  end.

Definition has (k : string) (m : t) : bool :=
  match get k m with Some _ => true | None => false end.

(** [m.entries()], in insertion order. *)
Definition entries (m : t) : list (string * V) := m.

Definition keys (m : t) : list string := map fst m.
End Map.
Arguments t : clear implicits.
End JsMap.

(** ** The Node runtime seen by the handlers *)

(** The error object [exec] hands to its callback. *)
Record ExecError := {
  ee_code : option Z;
  ee_signal : option string;
  ee_message : string
}.

(** What a [catch (error)] clause can receive: an [Error] with its
    [message], or the plain object [{ error, stderr }] that
    [executeCommand] rejects with. *)
Inductive Thrown :=
| JsError (message : string)
| Rejected (error : ExecError) (stderr : string).

(** [error.message]: the rejection object has no such property, and the
    template literal prints [undefined]. *)
Definition message_of (e : Thrown) : string :=
  match e with
  | JsError m => m
  | Rejected _ _ => "undefined"
  end.

(** [error.stderr || ""]. *)
Definition stderr_of (e : Thrown) : string :=
  match e with
  | JsError _ => ""
  | Rejected _ s => Js.or_else (Some s) ""
  end.

(** A [ChildProcess] object: the fields the program reads or that [kill]
    and the exit callback write ([exitCode], [signalCode], [killed], the
    handle), and the arguments of the call of [spawn] that made it:
    [spawn_command], [spawn_args] and [spawn_cwd] are [command], [args]
    and [options.cwd] of that call.  (Node's own [spawnfile] and
    [spawnargs] are not these: under [shell: true] they name the shell.) *)
Record ChildProcess := {
  spawn_command : string;
  spawn_args : list string;
  spawn_cwd : string;
  exitCode : option Z;
  signalCode : option string;
  killed : bool;
  handle_open : bool
}.

(** [spawn(command, args, { cwd, shell: true, env })], for a call that
    returns: the object is returned at once, whatever becomes of the
    operating-system process.  A call that throws (a [cwd] below a regular
    file, no descriptor left) and the [error] event of a spawn that failed
    (a [cwd] that does not exist), for which the program has no listener,
    are not modelled. *)
Definition spawn (command : string) (args : list string) (cwd : string) : ChildProcess :=
  {| spawn_command := command; spawn_args := args; spawn_cwd := cwd;
     exitCode := None; signalCode := None; killed := false;
     handle_open := true |}.

(** [child.kill()]: with a live handle the signal is sent and [killed] is
    set; once the handle is closed nothing happens and nothing is thrown. *)
Definition kill (c : ChildProcess) : ChildProcess :=
  if handle_open c then
    {| spawn_command := spawn_command c; spawn_args := spawn_args c; spawn_cwd := spawn_cwd c;
       exitCode := exitCode c; signalCode := signalCode c; killed := true;
       handle_open := true |}
  else c.

(** The exit callback of the runtime,
    [if (signalCode) this.signalCode = signalCode; else this.exitCode = exitCode;],
    after which the handle is closed.  It runs once: a closed handle has no
    callback left. *)
Definition onexit (code : Z) (signal : string) (c : ChildProcess) : ChildProcess :=
  if handle_open c then
    if Js.falsy signal then
      {| spawn_command := spawn_command c; spawn_args := spawn_args c; spawn_cwd := spawn_cwd c;
         exitCode := Some code; signalCode := signalCode c; killed := killed c;
         handle_open := false |}
    else
      {| spawn_command := spawn_command c; spawn_args := spawn_args c; spawn_cwd := spawn_cwd c;
         exitCode := exitCode c; signalCode := Some signal; killed := killed c;
         handle_open := false |}
  else c.

(** What the handlers ask of [fs], [os], [path] and [process]. *)
Record Host := {
  existsSync : string -> bool;
  (* JSON.parse(fs.readFileSync(p, "utf8")), which may throw *)
  readJSON : string -> Thrown + Js.json;
  homedir : string;
  process_cwd : string;
  path_join : string -> string -> string
}.

(** How the command run by [exec] ended, and what it wrote. *)
Record ExecOutcome := {
  exit_status : Z;
  exit_signal : option string;
  exec_stdout : string;
  exec_stderr : string
}.

(** The [error] argument of the [exec] callback: [null] exactly when the
    command exited with status 0 and was not ended by a signal. *)
Definition exec_error (command : string) (o : ExecOutcome) : option ExecError :=
  match exit_signal o with
  | None =>
      if Z.eqb (exit_status o) 0 then None
      else Some {| ee_code := Some (exit_status o); ee_signal := None;
                   ee_message := "Command failed: " ++ command |}
  | Some s =>
      Some {| ee_code := None; ee_signal := Some s;
              ee_message := "Command failed: " ++ command |}
  end.

(** ** The registry and the objects it refers to *)

(** The value stored by [runningProcesses.set].  [process] is a reference
    to the child object, shared with the runtime; [output] and
    [errorOutput] are strings, copied when the record is built. *)
Record ProcessInfo := {
  process : nat;
  command : string;
  args : list string;
  cwd : string;
  output : string;
  errorOutput : string;
  startTime : Z;
  processId : string
}.

(** The local variables [output] and [errorOutput] of one activation of
    [startProcess], captured by its two [data] listeners. *)
Record Frame := {
  var_output : string;
  var_errorOutput : string
}.

(** The module-level [runningProcesses], the child objects created so far
    and, for each of them, the frame its listeners write to.  Child [h] and
    frame [h] come from the same call of [startProcess]. *)
Record State := {
  runningProcesses : JsMap.t ProcessInfo;
  children : list ChildProcess;
  frames : list Frame
}.

Definition initial : State :=
  {| runningProcesses := JsMap.empty; children := []; frames := [] |}.

(** Replace the element at an index; nothing happens past the end. *)
Fixpoint update {A} (n : nat) (f : A -> A) (l : list A) : list A :=
  match l, n with
  | [], _ => []
  | x :: l', O => f x :: l'
  | x :: l', S n' => x :: update n' f l'
  end.

(** ** Handlers as state-passing computations that may throw *)

Definition M (A : Type) : Type := State -> State * (Thrown + A).

Definition ret {A} (a : A) : M A := fun st => (st, inr a).

Definition throw {A} (e : Thrown) : M A := fun st => (st, inl e).

Definition bind {A B} (m : M A) (k : A -> M B) : M B :=
  fun st =>
    match m st with
    | (st', inr a) => k a st'
    | (st', inl e) => (st', inl e)
    end.

Definition get_state : M State := fun st => (st, inr st).

Definition put_state (st' : State) : M unit := fun _ => (st', inr tt).

(** [try { body } catch (error) { handler }]. *)
Definition try_catch {A} (body : M A) (handler : Thrown -> M A) : M A :=
  fun st =>
    match body st with
    | (st', inr a) => (st', inr a)
    | (st', inl e) => handler e st'
    end.

Notation "x <- m ;; k" := (bind m (fun x => k))
  (at level 61, m at next level, right associativity).
Notation "m ;;; k" := (bind m (fun _ => k))
  (at level 61, right associativity).

(** A call into the runtime that returns or throws and leaves the state
    alone. *)
Definition lift {A} (r : Thrown + A) : M A := fun st => (st, r).

(** [if (c) throw new Error(msg);] *)
Definition throw_if (c : bool) (msg : string) : M unit :=
  if c then throw (JsError msg) else ret tt.

(** ** [startProcess] *)

(** [rnd] is the string [Math.random().toString(36)] and [now] the instant
    of [new Date()], in milliseconds.  The two [data] listeners are the
    events [StdoutData] and [StderrData] below. *)
Definition startProcess (rnd : string) (now : Z)
    (command : string) (args : list string) (cwd : string) : M string :=
  st <- get_state ;;
  let childProcess := length (children st) in
  let output := "" in
  let errorOutput := "" in
  let processId := Js.substring 2 15 rnd in
  put_state
    {| runningProcesses :=
         JsMap.set processId
           {| process := childProcess; command := command; args := args;
              cwd := cwd; output := output; errorOutput := errorOutput;
              startTime := now; processId := processId |}
           (runningProcesses st);
       children := children st ++ [spawn command args cwd];
       frames := frames st ++ [{| var_output := output; var_errorOutput := errorOutput |}] |} ;;;
  ret processId.

(** [executeCommand]: the promise settles from the callback of [exec]. *)
Definition executeCommand (command : string) (o : ExecOutcome) : M (string * string) :=
  match exec_error command o with
  | Some error => throw (Rejected error (exec_stderr o))
  | None => ret (exec_stdout o, exec_stderr o)
  end.

(** ** Arguments and results of the tools *)

Module CreateReactAppSchema.
Record t := { name : string; template : option string; directory : option string }.
End CreateReactAppSchema.

Module RunReactAppSchema.
Record t := { projectPath : string }.
End RunReactAppSchema.

Module RunCommandSchema.
Record t := { command : string; directory : option string }.
End RunCommandSchema.

Module GetProcessOutputSchema.
Record t := { processId : string }.
End GetProcessOutputSchema.

Module StopProcessSchema.
Record t := { processId : string }.
End StopProcessSchema.

Module InstallPackageSchema.
Record t := { packageName : string; directory : option string; dev : option bool }.
End InstallPackageSchema.

(** One element of [processes] in the answer of [handleListProcesses].
    Instants stay in milliseconds; [toISOString] only prints them. *)
Record Snapshot := {
  snap_processId : string;
  snap_command : string;
  snap_directory : string;
  snap_isRunning : bool;
  snap_exitCode : option Z;
  snap_startTime : Z;
  snap_runTime : string
}.

(** The object literals the handlers return, one constructor per set of
    keys. *)
Inductive Result :=
| Created (message processId projectDir : string)
| Started (message processId note : string)
| Ran (command directory output stderr : string)
| Status (processId command directory : string) (isRunning : bool)
    (exitCode : option Z) (output errorOutput : string)
    (startTime : Z) (runTime : string)
| Stopped (message command directory : string)
| Listed (processes : list Snapshot) (count : nat)
| Installing (message processId command : string)
| Failed (error : string)
| FailedCommand (error stderr : string).

Definition error_field (r : Result) : option string :=
  match r with
  | Failed e => Some e
  | FailedCommand e _ => Some e
  | _ => None
  end.

Definition stderr_field (r : Result) : option string :=
  match r with
  | Ran _ _ _ s => Some s
  | FailedCommand _ s => Some s
  | _ => None
  end.

Definition processId_field (r : Result) : option string :=
  match r with
  | Created _ p _ => Some p
  | Started _ p _ => Some p
  | Status p _ _ _ _ _ _ _ _ => Some p
  | Installing _ p _ => Some p
  | _ => None
  end.

(** [`${command} ${args.join(" ")}`] *)
Definition command_line (info : ProcessInfo) : string :=
  command info ++ " " ++ Js.join " " (args info).

(** [`${Math.floor((new Date() - startTime) / 1000)} seconds`] *)
Definition runTime (now : Z) (info : ProcessInfo) : string :=
  Js.of_Z ((now - startTime info) / 1000) ++ " seconds".

(** Reading a property of an object that is not there throws a
    [TypeError]. *)
Definition deref {A} (o : option A) (prop : string) : M A :=
  match o with
  | Some a => ret a
  | None =>
      throw (JsError ("Cannot read properties of undefined (reading '" ++ prop ++ "')"))
  end.

(** Reading a property of [null] throws a [TypeError] as well. *)
Definition deref_null {A} (o : option A) (prop : string) : M A :=
  match o with
  | Some a => ret a
  | None =>
      throw (JsError ("Cannot read properties of null (reading '" ++ prop ++ "')"))
  end.

(** ** The tool handlers *)

Definition handleCreateReactApp (host : Host) (rnd : string) (now : Z)
    (params : CreateReactAppSchema.t) : M Result :=
  try_catch
    (let name := CreateReactAppSchema.name params in
     let template := CreateReactAppSchema.template params in
     let directory := CreateReactAppSchema.directory params in
     throw_if (Js.falsy name) "Project name is required" ;;;
     let baseDir := Js.or_else directory (homedir host) in
     let projectDir := path_join host baseDir name in
     throw_if (existsSync host projectDir)
       ("Directory " ++ projectDir ++ " already exists") ;;;
     let createCommand :=
       Js.if_truthy template
         (fun template => "npx create-react-app " ++ name ++ " --template " ++ template)
         ("npx create-react-app " ++ name) in
     (* console.log(...) writes to the terminal of the server only *)
     processId <- startProcess rnd now createCommand [] baseDir ;;
     ret (Created ("Creating React app " ++ Js.quoted name ++ " in " ++ projectDir)
            processId projectDir))
    (fun error => ret (Failed ("Error creating React app: " ++ message_of error))).

(** Whether a parsed manifest passes
    [!packageJson.dependencies || !packageJson.dependencies.react]. *)
Definition check_react (packageJson : Js.json) : M unit :=
  dependencies <- deref_null (Js.get packageJson "dependencies") "dependencies" ;;
  if negb (Js.truthy dependencies) then
    throw (JsError "Not a valid React app: react dependency not found in package.json")
  else
    match dependencies with
    | Some d =>
        react <- deref_null (Js.get d "react") "react" ;;
        throw_if (negb (Js.truthy react))
          "Not a valid React app: react dependency not found in package.json"
    | None => ret tt
    end.

Definition handleRunReactApp (host : Host) (rnd : string) (now : Z)
    (params : RunReactAppSchema.t) : M Result :=
  try_catch
    (let projectPath := RunReactAppSchema.projectPath params in
     throw_if (Js.falsy projectPath) "Project path is required" ;;;
     throw_if (negb (existsSync host projectPath))
       ("Directory " ++ projectPath ++ " does not exist") ;;;
     let packageJsonPath := path_join host projectPath "package.json" in
     throw_if (negb (existsSync host packageJsonPath))
       ("Not a valid React app: package.json not found in " ++ projectPath) ;;;
     packageJson <- lift (readJSON host packageJsonPath) ;;
     check_react packageJson ;;;
     processId <- startProcess rnd now "npm" ["start"] projectPath ;;
     ret (Started ("Starting React development server in " ++ projectPath)
            processId
            "The development server should be accessible at http://localhost:3000"))
    (fun error => ret (Failed ("Error running React app: " ++ message_of error))).

Definition handleRunCommand (host : Host) (o : ExecOutcome)
    (params : RunCommandSchema.t) : M Result :=
  try_catch
    (let command := RunCommandSchema.command params in
     let directory := RunCommandSchema.directory params in
     throw_if (Js.falsy command) "Command is required" ;;;
     let workingDir := Js.or_else directory (process_cwd host) in
     throw_if (negb (existsSync host workingDir))
       ("Directory " ++ workingDir ++ " does not exist") ;;;
     result <- executeCommand command o ;;
     ret (Ran command workingDir (fst result) (Js.or_else (Some (snd result)) EmptyString)))
    (fun error =>
       ret (FailedCommand ("Error executing command: " ++ message_of error)
              (stderr_of error))).

Definition handleGetProcessOutput (now : Z)
    (params : GetProcessOutputSchema.t) : M Result :=
  try_catch
    (let processId := GetProcessOutputSchema.processId params in
     throw_if (Js.falsy processId) "Process ID is required" ;;;
     st <- get_state ;;
     throw_if (negb (JsMap.has processId (runningProcesses st)))
       ("Process with ID " ++ processId ++ " not found") ;;;
     processInfo <- deref (JsMap.get processId (runningProcesses st)) "process" ;;
     child <- deref (nth_error (children st) (process processInfo)) "exitCode" ;;
     let isRunning := match exitCode child with None => true | Some _ => false end in
     ret (Status processId (command_line processInfo) (cwd processInfo)
            isRunning (exitCode child)
            (output processInfo) (errorOutput processInfo)
            (startTime processInfo) (runTime now processInfo)))
    (fun error => ret (Failed ("Error getting process output: " ++ message_of error))).

Definition handleStopProcess (params : StopProcessSchema.t) : M Result :=
  try_catch
    (let processId := StopProcessSchema.processId params in
     throw_if (Js.falsy processId) "Process ID is required" ;;;
     st <- get_state ;;
     throw_if (negb (JsMap.has processId (runningProcesses st)))
       ("Process with ID " ++ processId ++ " not found") ;;;
     processInfo <- deref (JsMap.get processId (runningProcesses st)) "process" ;;
     deref (nth_error (children st) (process processInfo)) "kill" ;;;
     put_state
       {| runningProcesses := runningProcesses st;
          children := update (process processInfo) kill (children st);
          frames := frames st |} ;;;
     ret (Stopped ("Process " ++ processId ++ " stopped")
            (command_line processInfo) (cwd processInfo)))
    (fun error => ret (Failed ("Error stopping process: " ++ message_of error))).

(** The body of the [for ... of runningProcesses.entries()] loop, one
    entry after the other, pushing onto [processes]. *)
Fixpoint list_loop (now : Z) (entries : list (string * ProcessInfo))
    (processes : list Snapshot) : M (list Snapshot) :=
  match entries with
  | [] => ret processes
  | (processId, processInfo) :: rest =>
      st <- get_state ;;
      child <- deref (nth_error (children st) (process processInfo)) "exitCode" ;;
      let isRunning := match exitCode child with None => true | Some _ => false end in
      list_loop now rest
        (processes ++
           [{| snap_processId := processId;
               snap_command := command_line processInfo;
               snap_directory := cwd processInfo;
               snap_isRunning := isRunning;
               snap_exitCode := exitCode child;
               snap_startTime := startTime processInfo;
               snap_runTime := runTime now processInfo |}])
  end.

Definition handleListProcesses (now : Z) : M Result :=
  try_catch
    (st <- get_state ;;
     processes <- list_loop now (JsMap.entries (runningProcesses st)) [] ;;
     ret (Listed processes (length processes)))
    (fun error => ret (Failed ("Error listing processes: " ++ message_of error))).

Definition handleInstallPackage (host : Host) (rnd : string) (now : Z)
    (params : InstallPackageSchema.t) : M Result :=
  try_catch
    (let packageName := InstallPackageSchema.packageName params in
     let directory := InstallPackageSchema.directory params in
     let dev := InstallPackageSchema.dev params in
     throw_if (Js.falsy packageName) "Package name is required" ;;;
     let workingDir := Js.or_else directory (process_cwd host) in
     throw_if (negb (existsSync host workingDir))
       ("Directory " ++ workingDir ++ " does not exist") ;;;
     let packageJsonPath := path_join host workingDir "package.json" in
     throw_if (negb (existsSync host packageJsonPath))
       ("Not a valid Node.js project: package.json not found in " ++ workingDir) ;;;
     let installCommand :=
       match dev with
       | Some true => "npm install " ++ packageName ++ " --save-dev"
       | _ => "npm install " ++ packageName
       end in
     processId <- startProcess rnd now installCommand [] workingDir ;;
     ret (Installing ("Installing " ++ packageName ++ " in " ++ workingDir)
            processId installCommand))
    (fun error => ret (Failed ("Error installing package: " ++ message_of error))).

(** ** Traces: tool calls and callbacks of the runtime *)

(** A tool call carries what the runtime answers during it; [StdoutData]
    and [StderrData] are the [data] listeners that [startProcess] attached
    to child [h], [Exit] is the exit callback of child [h], [Shutdown] is
    the listener of the [exit] event of the server itself. *)
Inductive Event :=
| CreateReactApp (host : Host) (rnd : string) (now : Z) (params : CreateReactAppSchema.t)
| RunReactApp (host : Host) (rnd : string) (now : Z) (params : RunReactAppSchema.t)
| RunCommand (host : Host) (o : ExecOutcome) (params : RunCommandSchema.t)
| GetProcessOutput (now : Z) (params : GetProcessOutputSchema.t)
| StopProcess (params : StopProcessSchema.t)
| ListProcesses (now : Z)
| InstallPackage (host : Host) (rnd : string) (now : Z) (params : InstallPackageSchema.t)
| StdoutData (h : nat) (data : string)
| StderrData (h : nat) (data : string)
| Exit (h : nat) (code : Z) (signal : string)
| Shutdown.

(** [output += chunk] in the frame of the listener. *)
Definition on_stdout (data : string) (f : Frame) : Frame :=
  {| var_output := var_output f ++ data; var_errorOutput := var_errorOutput f |}.

(** [errorOutput += chunk] in the frame of the listener. *)
Definition on_stderr (data : string) (f : Frame) : Frame :=
  {| var_output := var_output f; var_errorOutput := var_errorOutput f ++ data |}.

(** [for (const [processId, processInfo] of runningProcesses.entries())
    { try { processInfo.process.kill(); } catch (error) { ... } }] *)
Fixpoint cleanup (entries : list (string * ProcessInfo))
    (cs : list ChildProcess) : list ChildProcess :=
  match entries with
  | [] => cs
  | (_, processInfo) :: rest => cleanup rest (update (process processInfo) kill cs)
  end.

Definition callback (f : State -> State) : M (option Result) :=
  fun st => (f st, inr None).

Definition tool (m : M Result) : M (option Result) :=
  r <- m ;; ret (Some r).

Definition react (ev : Event) : M (option Result) :=
  match ev with
  | CreateReactApp host rnd now params => tool (handleCreateReactApp host rnd now params)
  | RunReactApp host rnd now params => tool (handleRunReactApp host rnd now params)
  | RunCommand host o params => tool (handleRunCommand host o params)
  | GetProcessOutput now params => tool (handleGetProcessOutput now params)
  | StopProcess params => tool (handleStopProcess params)
  | ListProcesses now => tool (handleListProcesses now)
  | InstallPackage host rnd now params => tool (handleInstallPackage host rnd now params)
  | StdoutData h data =>
      callback (fun st =>
        {| runningProcesses := runningProcesses st; children := children st;
           frames := update h (on_stdout data) (frames st) |})
  | StderrData h data =>
      callback (fun st =>
        {| runningProcesses := runningProcesses st; children := children st;
           frames := update h (on_stderr data) (frames st) |})
  | Exit h code signal =>
      callback (fun st =>
        {| runningProcesses := runningProcesses st;
           children := update h (onexit code signal) (children st);
           frames := frames st |})
  | Shutdown =>
      callback (fun st =>
        {| runningProcesses := runningProcesses st;
           children := cleanup (JsMap.entries (runningProcesses st)) (children st);
           frames := frames st |})
  end.

Definition step (st : State) (ev : Event) : State := fst (react ev st).

(** What the caller of a tool gets: a result, or an exception that left
    the handler. *)
Definition answer (st : State) (ev : Event) : Thrown + option Result :=
  snd (react ev st).

Definition run (st : State) (trace : list Event) : State :=
  fold_left step trace st.

Definition reachable (st : State) : Prop :=
  exists trace, st = run initial trace.

(** The identifier a launching tool handed to its caller. *)
Definition launched_id (a : Thrown + option Result) : option string :=
  match a with
  | inr (Some (Created _ p _)) => Some p
  | inr (Some (Started _ p _)) => Some p
  | inr (Some (Installing _ p _)) => Some p
  | _ => None
  end.

(** The identifiers handed out along a trace, oldest first. *)
Fixpoint launches (st : State) (trace : list Event) : list string :=
  match trace with
  | [] => []
  | ev :: rest =>
      match launched_id (answer st ev) with
      | Some p => p :: launches (step st ev) rest
      | None => launches (step st ev) rest
      end
  end.

(** ** Vocabulary of the statements *)

(** [names s pid]: the text [s] contains [pid]. *)
Definition names (s pid : string) : Prop :=
  exists before after, s = before ++ pid ++ after.

(** The state after one call of [startProcess]. *)
Definition launch (rnd : string) (now : Z) (command : string)
    (args : list string) (cwd : string) (st : State) : State :=
  fst (startProcess rnd now command args cwd st).

(** What can happen to a child object in one step: nothing, [kill], or the
    exit callback. *)
Inductive child_step (c : ChildProcess) : ChildProcess -> Prop :=
| child_same : child_step c c
| child_kill : child_step c (kill c)
| child_exit code signal : child_step c (onexit code signal c).

(** A step that leaves the registry alone and hands out no identifier. *)
Definition quiet (st : State) (ev : Event) : Prop :=
  runningProcesses (step st ev) = runningProcesses st /\
  Forall2 child_step (children st) (children (step st ev)) /\
  launched_id (answer st ev) = None.

(** A step that is one [startProcess] whose identifier goes to the
    caller. *)
Definition launching (st : State) (ev : Event) : Prop :=
  exists rnd now command args cwd,
    step st ev = launch rnd now command args cwd st /\
    launched_id (answer st ev) = Some (Js.substring 2 15 rnd).

(** Every record sits under its own [processId]. *)
Definition keyed (st : State) : Prop :=
  forall k info, In (k, info) (JsMap.entries (runningProcesses st)) -> processId info = k.

(** The strings stored in the records are the empty ones they were built
    with. *)
Definition blank (st : State) : Prop :=
  forall k info, In (k, info) (JsMap.entries (runningProcesses st)) ->
    output info = EmptyString /\ errorOutput info = EmptyString.

(** Every record refers to a child object that exists. *)
Definition bound (st : State) : Prop :=
  forall k info, In (k, info) (JsMap.entries (runningProcesses st)) ->
    process info < length (children st).

(** No key occurs twice in the registry. *)
Definition distinct (st : State) : Prop := NoDup (JsMap.keys (runningProcesses st)).

(** The calls [get-process-output] and [stop-process] with a given
    [processId]. *)
Definition get_process_output (pid : string) (now : Z) : Event :=
  GetProcessOutput now {| GetProcessOutputSchema.processId := pid |}.

Definition stop_process (pid : string) : Event :=
  StopProcess {| StopProcessSchema.processId := pid |}.

(** [isRunning], as both handlers compute it: [exitCode === null]. *)
Definition isRunning (c : ChildProcess) : bool :=
  match exitCode c with None => true | Some _ => false end.

(** The [output] and [isRunning] fields of an answer of
    [get-process-output]. *)
Definition status_output (r : Result) : option string :=
  match r with
  | Status _ _ _ _ _ out _ _ _ => Some out
  | _ => None
  end.

Definition status_isRunning (r : Result) : option bool :=
  match r with
  | Status _ _ _ running _ _ _ _ _ => Some running
  | _ => None
  end.

(** The answer of [get-process-output] for a record and its child. *)
Definition status_of (now : Z) (pid : string) (info : ProcessInfo)
    (c : ChildProcess) : Result :=
  Status pid (command_line info) (cwd info) (isRunning c) (exitCode c)
    (output info) (errorOutput info) (startTime info) (runTime now info).

(** The answer of [stop-process] for a record. *)
Definition stopped_of (pid : string) (info : ProcessInfo) : Result :=
  Stopped ("Process " ++ pid ++ " stopped") (command_line info) (cwd info).

(** A parsed manifest declares the dependency when it is an object whose
    [dependencies] is an object with a [react] entry. *)
Definition declares_react (j : Js.json) : bool :=
  match j with
  | Js.JObj fields =>
      match Js.field "dependencies" fields with
      | Some (Js.JObj deps) =>
          match Js.field "react" deps with Some _ => true | None => false end
      | _ => false
      end
  | _ => false
  end.

(** The directory holds no [package.json], or one that does not declare
    the dependency. *)
Definition no_react_manifest (host : Host) (dir : string) : Prop :=
  existsSync host (path_join host dir "package.json") = false \/
  exists j, readJSON host (path_join host dir "package.json") = inr j /\
            declares_react j = false.

(** ** Sample inputs *)

Module Sample.

Definition newline : string := String (ascii_of_nat 10) EmptyString.

Definition manifest : Js.json :=
  Js.JObj [("name", Js.JStr "app");
           ("dependencies", Js.JObj [("react", Js.JStr "^18.2.0")])].

(** A machine with a React project in [/srv/app] and an empty directory
    [/srv/empty]. *)
Definition host : Host :=
  {| existsSync := fun p =>
       String.eqb p "/srv" || String.eqb p "/srv/app" ||
       String.eqb p "/srv/app/package.json" || String.eqb p "/srv/empty";
     readJSON := fun _ => inr manifest;
     homedir := "/home/dev";
     process_cwd := "/srv";
     path_join := fun a b => a ++ "/" ++ b |}.

(** [install-package] of [left-pad] in [/srv/app]; [rnd] is what
    [Math.random().toString(36)] gave. *)
Definition install (rnd : string) (now : Z) : Event :=
  InstallPackage host rnd now
    {| InstallPackageSchema.packageName := "left-pad";
       InstallPackageSchema.directory := Some "/srv/app";
       InstallPackageSchema.dev := None |}.

Definition run_app (rnd : string) (now : Z) : Event :=
  RunReactApp host rnd now {| RunReactAppSchema.projectPath := "/srv/app" |}.

(** The record [startProcess] builds for [install] when it draws [rnd]
    and is the first launch. *)
Definition left_pad (rnd : string) (now : Z) : ProcessInfo :=
  {| process := 0; command := "npm install left-pad"; args := [];
     cwd := "/srv/app"; output := EmptyString; errorOutput := EmptyString;
     startTime := now; processId := Js.substring 2 15 rnd |}.

(** A process is launched, prints [hello] and a newline, and exits with
    status 0. *)
Definition hello : list Event :=
  [install "0.4fzyo82mvyr" 1000; StdoutData 0 ("hello" ++ newline); Exit 0 0 EmptyString].

End Sample.

(** ** Vocabulary of the further properties *)

(** What child [h] wrote to stdout along a trace, in the order of
    arrival; likewise for stderr. *)
Fixpoint stdout_chunks (h : nat) (trace : list Event) : string :=
  match trace with
  | [] => EmptyString
  | StdoutData h' data :: rest =>
      if Nat.eqb h' h then data ++ stdout_chunks h rest else stdout_chunks h rest
  | _ :: rest => stdout_chunks h rest
  end.

Fixpoint stderr_chunks (h : nat) (trace : list Event) : string :=
  match trace with
  | [] => EmptyString
  | StderrData h' data :: rest =>
      if Nat.eqb h' h then data ++ stderr_chunks h rest else stderr_chunks h rest
  | _ :: rest => stderr_chunks h rest
  end.

(** Each child object has its frame. *)
Definition aligned (st : State) : Prop :=
  length (frames st) = length (children st).

(** The element [list-processes] pushes for a record and its child. *)
Definition snapshot_of (now : Z) (pid : string) (info : ProcessInfo)
    (c : ChildProcess) : Snapshot :=
  {| snap_processId := pid;
     snap_command := command_line info;
     snap_directory := cwd info;
     snap_isRunning := isRunning c;
     snap_exitCode := exitCode c;
     snap_startTime := startTime info;
     snap_runTime := runTime now info |}.

(** The value a parsed manifest gives for [dependencies.react], when
    [dependencies] is an object that has the entry. *)
Definition react_entry (j : Js.json) : option Js.json :=
  match j with
  | Js.JObj fields =>
      match Js.field "dependencies" fields with
      | Some (Js.JObj deps) => Js.field "react" deps
      | _ => None
      end
  | _ => None
  end.

(** Every record refers to the child object returned by the call of
    [spawn] that was given the record's own command, arguments and
    directory. *)
Definition owns (st : State) : Prop :=
  forall k info, In (k, info) (JsMap.entries (runningProcesses st)) ->
    exists c, nth_error (children st) (process info) = Some c /\
              spawn_command c = command info /\ spawn_args c = args info /\
              spawn_cwd c = cwd info.

(** No child object is referred to under two keys. *)
Definition exclusive (st : State) : Prop :=
  forall k1 info1 k2 info2,
    In (k1, info1) (JsMap.entries (runningProcesses st)) ->
    In (k2, info2) (JsMap.entries (runningProcesses st)) ->
    process info1 = process info2 -> k1 = k2.

(** ** The timestamp of the log *)

(** [s.replace(/[:.]/g, "-")] *)
Fixpoint replace_colons_and_dots (s : string) : string :=
  match s with
  | EmptyString => EmptyString
  | String c rest =>
      String (if Ascii.eqb c ":" || Ascii.eqb c "." then "-"%char else c)
        (replace_colons_and_dots rest)
  end.

(** [getCurrentTimestamp], given the text [new Date().toISOString()]
    returned. *)
Definition getCurrentTimestamp (iso : string) : string :=
  replace_colons_and_dots iso.

(** ** The two file tools *)

Module EditFileSchema.
Record t := { filePath : string; content : string }.
End EditFileSchema.

Module ReadFileSchema.
Record t := { filePath : string }.
End ReadFileSchema.

(** The object literals of [handleEditFile] and [handleReadFile]. *)
Inductive FileResult :=
| Edited (message filePath : string) (size : nat)
| ReadBack (filePath content : string) (size : nat)
| FileFailed (error : string).

(** What the two handlers ask of [fs], [path] and [Buffer], over a type
    [FS] of file-system states.  A call that throws may still have changed
    the file system. *)
Record FileSystem (FS : Type) := {
  fs_existsSync : FS -> string -> bool;
  (* fs.mkdirSync(directory, { recursive: true }) *)
  fs_mkdirSync : FS -> string -> FS * option Thrown;
  (* fs.writeFileSync(filePath, content, "utf8") *)
  fs_writeFileSync : FS -> string -> string -> FS * option Thrown;
  (* fs.readFileSync(filePath, "utf8") *)
  fs_readFileSync : FS -> string -> Thrown + string;
  (* path.dirname *)
  dirname : string -> string;
  (* Buffer.byteLength(content, "utf8") *)
  byteLength : string -> nat
}.
Arguments fs_existsSync {FS}.
Arguments fs_mkdirSync {FS}.
Arguments fs_writeFileSync {FS}.
Arguments fs_readFileSync {FS}.
Arguments dirname {FS}.
Arguments byteLength {FS}.

(** [content] is a string, so [content === undefined || content === null]
    is false and the second [throw] is never reached. *)
Definition handleEditFile {FS} (io : FileSystem FS)
    (params : EditFileSchema.t) (fs : FS) : FS * FileResult :=
  let filePath := EditFileSchema.filePath params in
  let content := EditFileSchema.content params in
  let failed (e : Thrown) := FileFailed ("Error editing file: " ++ message_of e) in
  if Js.falsy filePath then (fs, failed (JsError "File path is required"))
  else
    let directory := dirname io filePath in
    let made :=
      if fs_existsSync io fs directory then (fs, None)
      else fs_mkdirSync io fs directory in
    match made with
    | (fs1, Some e) => (fs1, failed e)
    | (fs1, None) =>
        match fs_writeFileSync io fs1 filePath content with
        | (fs2, Some e) => (fs2, failed e)
        | (fs2, None) =>
            (fs2, Edited ("File " ++ filePath ++ " updated successfully") filePath
                    (byteLength io content))
        end
    end.

Definition handleReadFile {FS} (io : FileSystem FS)
    (params : ReadFileSchema.t) (fs : FS) : FileResult :=
  let filePath := ReadFileSchema.filePath params in
  let failed (e : Thrown) := FileFailed ("Error reading file: " ++ message_of e) in
  if Js.falsy filePath then failed (JsError "File path is required")
  else if negb (fs_existsSync io fs filePath) then
    failed (JsError ("File " ++ filePath ++ " does not exist"))
  else
    match fs_readFileSync io fs filePath with
    | inl e => failed e
    | inr content => ReadBack filePath content (byteLength io content)
    end.

(** What is written reads back: the law of a file system that the round
    trip of the two tools rests on. *)
Definition reads_back_writes {FS} (io : FileSystem FS) : Prop :=
  forall fs filePath content fs',
    fs_writeFileSync io fs filePath content = (fs', None) ->
    fs_existsSync io fs' filePath = true /\
    fs_readFileSync io fs' filePath = inr content.

(** A file system of files only, kept as a list of paths with their
    contents, the latest write first. *)
Definition flat_files : FileSystem (list (string * string)) :=
  {| fs_existsSync := fun fs p => JsMap.has p fs;
     fs_mkdirSync := fun fs _ => (fs, None);
     fs_writeFileSync := fun fs p c => ((p, c) :: fs, None);
     fs_readFileSync := fun fs p =>
       match JsMap.get p fs with
       | Some c => inr c
       | None => inl (JsError ("ENOENT: no such file or directory, open '" ++ p ++ "'"))
       end;
     dirname := fun _ => ".";
     byteLength := String.length |}.

(** ** The request handlers of the server *)

(** The validations of zod that the schemas use, on a value read from the
    arguments ([None] is [undefined]). *)
Module Zod.

(** [z.string()] *)
Definition string (v : option Js.json) : option String.string :=
  match v with
  | Some (Js.JStr s) => Some s
  | _ => None
  end.

(** [z.string().optional()] *)
Definition optional_string (v : option Js.json) : option (option String.string) :=
  match v with
  | None => Some None
  | Some (Js.JStr s) => Some (Some s)
  | _ => None
  end.

(** [z.boolean().optional()] *)
Definition optional_boolean (v : option Js.json) : option (option bool) :=
  match v with
  | None => Some None
  | Some (Js.JBool b) => Some (Some b)
  | _ => None
  end.

(** [z.object({...})]: the input has to be an object; keys the schema
    does not name are dropped. *)
Definition object (args : option Js.json) : option (list (String.string * Js.json)) :=
  match args with
  | Some (Js.JObj fields) => Some fields
  | _ => None
  end.

End Zod.

Definition parseCreateReactApp (args : option Js.json) : option CreateReactAppSchema.t :=
  match Zod.object args with
  | Some fields =>
      match Zod.string (Js.field "name" fields),
            Zod.optional_string (Js.field "template" fields),
            Zod.optional_string (Js.field "directory" fields) with
      | Some name, Some template, Some directory =>
          Some {| CreateReactAppSchema.name := name;
                  CreateReactAppSchema.template := template;
                  CreateReactAppSchema.directory := directory |}
      | _, _, _ => None
      end
  | None => None
  end.

Definition parseRunReactApp (args : option Js.json) : option RunReactAppSchema.t :=
  match Zod.object args with
  | Some fields =>
      match Zod.string (Js.field "projectPath" fields) with
      | Some projectPath => Some {| RunReactAppSchema.projectPath := projectPath |}
      | None => None
      end
  | None => None
  end.

Definition parseRunCommand (args : option Js.json) : option RunCommandSchema.t :=
  match Zod.object args with
  | Some fields =>
      match Zod.string (Js.field "command" fields),
            Zod.optional_string (Js.field "directory" fields) with
      | Some command, Some directory =>
          Some {| RunCommandSchema.command := command;
                  RunCommandSchema.directory := directory |}
      | _, _ => None
      end
  | None => None
  end.

Definition parseGetProcessOutput (args : option Js.json) : option GetProcessOutputSchema.t :=
  match Zod.object args with
  | Some fields =>
      match Zod.string (Js.field "processId" fields) with
      | Some processId => Some {| GetProcessOutputSchema.processId := processId |}
      | None => None
      end
  | None => None
  end.

Definition parseStopProcess (args : option Js.json) : option StopProcessSchema.t :=
  match Zod.object args with
  | Some fields =>
      match Zod.string (Js.field "processId" fields) with
      | Some processId => Some {| StopProcessSchema.processId := processId |}
      | None => None
      end
  | None => None
  end.

Definition parseEditFile (args : option Js.json) : option EditFileSchema.t :=
  match Zod.object args with
  | Some fields =>
      match Zod.string (Js.field "filePath" fields),
            Zod.string (Js.field "content" fields) with
      | Some filePath, Some content =>
          Some {| EditFileSchema.filePath := filePath;
                  EditFileSchema.content := content |}
      | _, _ => None
      end
  | None => None
  end.

Definition parseReadFile (args : option Js.json) : option ReadFileSchema.t :=
  match Zod.object args with
  | Some fields =>
      match Zod.string (Js.field "filePath" fields) with
      | Some filePath => Some {| ReadFileSchema.filePath := filePath |}
      | None => None
      end
  | None => None
  end.

Definition parseInstallPackage (args : option Js.json) : option InstallPackageSchema.t :=
  match Zod.object args with
  | Some fields =>
      match Zod.string (Js.field "packageName" fields),
            Zod.optional_string (Js.field "directory" fields),
            Zod.optional_boolean (Js.field "dev" fields) with
      | Some packageName, Some directory, Some dev =>
          Some {| InstallPackageSchema.packageName := packageName;
                  InstallPackageSchema.directory := directory;
                  InstallPackageSchema.dev := dev |}
      | _, _, _ => None
      end
  | None => None
  end.

(** The handler the [switch] of the call-tool request selects, with the
    arguments its schema let through. *)
Inductive Call :=
| CallCreateReactApp (createArgs : CreateReactAppSchema.t)
| CallRunReactApp (runArgs : RunReactAppSchema.t)
| CallRunCommand (commandArgs : RunCommandSchema.t)
| CallGetProcessOutput (outputArgs : GetProcessOutputSchema.t)
| CallStopProcess (stopArgs : StopProcessSchema.t)
| CallListProcesses
| CallEditFile (editArgs : EditFileSchema.t)
| CallReadFile (readArgs : ReadFileSchema.t)
| CallInstallPackage (installArgs : InstallPackageSchema.t).

(** The two errors the request handler throws itself: a [ZodError] turned
    into [Invalid arguments: ...], and [Unknown tool: name]. *)
Inductive Refusal :=
| InvalidArguments
| UnknownTool (name : string).

Definition parsed {A} (call : A -> Call) (p : option A) : Refusal + Call :=
  match p with
  | Some a => inr (call a)
  | None => inl InvalidArguments
  end.

(** [switch (name)] of the call-tool request handler, up to the call of
    the handler.  [args] is [request.params.arguments]; the handler is
    registered under [CallToolRequestSchema], so the SDK has checked the
    request before the [switch] runs, and the [arguments] that reach it
    are absent or an object. *)
Definition route (name : string) (args : option Js.json) : Refusal + Call :=
  if String.eqb name "create-react-app" then parsed CallCreateReactApp (parseCreateReactApp args)
  else if String.eqb name "run-react-app" then parsed CallRunReactApp (parseRunReactApp args)
  else if String.eqb name "run-command" then parsed CallRunCommand (parseRunCommand args)
  else if String.eqb name "get-process-output" then
    parsed CallGetProcessOutput (parseGetProcessOutput args)
  else if String.eqb name "stop-process" then parsed CallStopProcess (parseStopProcess args)
  else if String.eqb name "list-processes" then inr CallListProcesses
  else if String.eqb name "edit-file" then parsed CallEditFile (parseEditFile args)
  else if String.eqb name "read-file" then parsed CallReadFile (parseReadFile args)
  else if String.eqb name "install-package" then
    parsed CallInstallPackage (parseInstallPackage args)
  else inl (UnknownTool name).

(** One entry of the answer to the list-tools request: the name, the
    [properties] of its [inputSchema] with their [type], and [required].
    The descriptions are prose and are left out. *)
Record ToolDescription := {
  tool_name : string;
  tool_properties : list (string * string);
  tool_required : list string
}.

Definition listed_tools : list ToolDescription :=
  [ {| tool_name := "create-react-app";
       tool_properties := [("name", "string"); ("template", "string"); ("directory", "string")];
       tool_required := ["name"] |};
    {| tool_name := "run-react-app";
       tool_properties := [("projectPath", "string")];
       tool_required := ["projectPath"] |};
    {| tool_name := "run-command";
       tool_properties := [("command", "string"); ("directory", "string")];
       tool_required := ["command"] |};
    {| tool_name := "get-process-output";
       tool_properties := [("processId", "string")];
       tool_required := ["processId"] |};
    {| tool_name := "stop-process";
       tool_properties := [("processId", "string")];
       tool_required := ["processId"] |};
    {| tool_name := "list-processes";
       tool_properties := [];
       tool_required := [] |};
    {| tool_name := "edit-file";
       tool_properties := [("filePath", "string"); ("content", "string")];
       tool_required := ["filePath"; "content"] |};
    {| tool_name := "read-file";
       tool_properties := [("filePath", "string")];
       tool_required := ["filePath"] |};
    {| tool_name := "install-package";
       tool_properties := [("packageName", "string"); ("directory", "string");
                           ("dev", "boolean")];
       tool_required := ["packageName"] |} ].

(** A value has the [type] an input schema names. *)
Definition has_type (ty : string) (v : Js.json) : bool :=
  match v with
  | Js.JStr _ => String.eqb ty "string"
  | Js.JBool _ => String.eqb ty "boolean"
  | _ => false
  end.

(** An object follows an advertised input schema: every required key is
    there, and every property that is there has its type. *)
Definition follows (t : ToolDescription) (fields : list (string * Js.json)) : bool :=
  forallb (fun k => match Js.field k fields with Some _ => true | None => false end)
    (tool_required t) &&
  forallb (fun p => match Js.field (fst p) fields with
                    | Some v => has_type (snd p) v
                    | None => true
                    end)
    (tool_properties t).

(** The request handler accepts the call: no error of its own. *)
Definition accepted (r : Refusal + Call) : bool :=
  match r with inr _ => true | inl _ => false end.

(** * Properties *)

(** ** Strings *)

Lemma falsy_iff (s : string) : Js.falsy s = true <-> s = EmptyString.
Proof. destruct s; simpl; split; congruence. Qed.

Lemma string_app_assoc (a b c : string) : (a ++ b) ++ c = a ++ (b ++ c).
Proof. induction a; simpl; congruence. Qed.

Lemma string_app_nil_r (a : string) : a ++ EmptyString = a.
Proof. induction a; simpl; congruence. Qed.

Lemma names_middle (a pid b : string) : names (a ++ pid ++ b) pid.
Proof. now exists a, b. Qed.

Lemma names_prefixed (p s pid : string) : names s pid -> names (p ++ s) pid.
Proof.
  intros (a & b & ->). exists (p ++ a), b. now rewrite string_app_assoc.
Qed.

(** ** The map *)

Section MapFacts.
Context {V : Type}.
Implicit Types (m : JsMap.t V) (k : string) (v : V).

Lemma get_set_same k v m : JsMap.get k (JsMap.set k v m) = Some v.
Proof.
  induction m as [|[k' v'] m IH]; simpl.
  - now rewrite String.eqb_refl.
  - destruct (String.eqb k k') eqn:E; simpl; rewrite ?E, ?String.eqb_refl; auto.
Qed.

Lemma get_set_other k k' v m :
  k' <> k -> JsMap.get k' (JsMap.set k v m) = JsMap.get k' m.
Proof.
  intros N. induction m as [|[k0 v0] m IH]; simpl.
  - apply String.eqb_neq in N. now rewrite N.
  - destruct (String.eqb k k0) eqn:E; simpl.
    + apply String.eqb_eq in E. subst k0.
      apply String.eqb_neq in N. now rewrite N.
    + now rewrite IH.
Qed.

Lemma has_In_keys k m : JsMap.has k m = true <-> In k (JsMap.keys m).
Proof.
  unfold JsMap.has. induction m as [|[k' v'] m IH]; simpl.
  - split; [discriminate | tauto].
  - destruct (String.eqb k k') eqn:E.
    + apply String.eqb_eq in E. subst. tauto.
    + apply String.eqb_neq in E. rewrite IH. split; [tauto|].
      intros [H|H]; [congruence | exact H].
Qed.

Lemma has_false_keys k m : JsMap.has k m = false <-> ~ In k (JsMap.keys m).
Proof.
  rewrite <- has_In_keys. destruct (JsMap.has k m); split; congruence.
Qed.

Lemma get_In k v m : JsMap.get k m = Some v -> In (k, v) m.
Proof.
  induction m as [|[k' v'] m IH]; simpl; [discriminate|].
  destruct (String.eqb k k') eqn:E.
  - apply String.eqb_eq in E. intros [= ->]. subst. now left.
  - intros H. right. auto.
Qed.

Lemma In_get k v m : NoDup (JsMap.keys m) -> In (k, v) m -> JsMap.get k m = Some v.
Proof.
  induction m as [|[k' v'] m IH]; simpl; [tauto|].
  intros ND [H|H].
  - injection H as -> ->. now rewrite String.eqb_refl.
  - inversion ND; subst. destruct (String.eqb k k') eqn:E.
    + apply String.eqb_eq in E. subst. exfalso. apply H2.
      change k' with (fst (k', v)). now apply in_map.
    + auto.
Qed.

(** A new key goes last; a known key changes nothing in the keys. *)
Lemma keys_set k v m :
  JsMap.keys (JsMap.set k v m) =
  if JsMap.has k m then JsMap.keys m else (JsMap.keys m ++ [k])%list.
Proof.
  unfold JsMap.has. induction m as [|[k' v'] m IH]; simpl; auto.
  destruct (String.eqb k k') eqn:E; simpl.
  - apply String.eqb_eq in E. now subst.
  - rewrite IH. now destruct (JsMap.get k m).
Qed.

Lemma In_set k v k' v' m :
  In (k', v') (JsMap.set k v m) -> (k', v') = (k, v) \/ In (k', v') m.
Proof.
  induction m as [|[k0 v0] m IH]; simpl.
  - intros [H|[]]. now left.
  - destruct (String.eqb k k0); simpl; intros [H|H]; auto.
    destruct (IH H); auto.
Qed.

Lemma Forall_set (P : string * V -> Prop) k v m :
  P (k, v) -> Forall P m -> Forall P (JsMap.set k v m).
Proof.
  intros Hk Hm. apply Forall_forall. intros [k' v'] H.
  destruct (In_set _ _ _ _ _ H) as [->|H']; auto.
  rewrite Forall_forall in Hm. auto.
Qed.

Lemma NoDup_keys_set k v m :
  NoDup (JsMap.keys m) -> NoDup (JsMap.keys (JsMap.set k v m)).
Proof.
  intros ND. rewrite keys_set. destruct (JsMap.has k m) eqn:E; auto.
  apply has_false_keys in E.
  apply NoDup_rev in ND. rewrite <- (rev_involutive (_ ++ _)%list).
  apply NoDup_rev. rewrite rev_app_distr. simpl. constructor; auto.
  now rewrite <- in_rev.
Qed.

End MapFacts.

(** ** Lists updated in place *)

Lemma update_length {A} n (f : A -> A) l : length (update n f l) = length l.
Proof.
  revert n. induction l; intros [|n]; simpl; auto.
Qed.

Lemma nth_error_update {A} n (f : A -> A) l h :
  nth_error (update n f l) h =
  if Nat.eqb h n then option_map f (nth_error l h) else nth_error l h.
Proof.
  revert n h. induction l as [|x l IH]; intros [|n] [|h]; simpl; auto.
  now destruct (Nat.eqb h n).
Qed.

(** ** One step *)

Ltac unfold_handler :=
  unfold step, answer, react, tool, callback,
    handleCreateReactApp, handleRunReactApp, handleRunCommand,
    handleGetProcessOutput, handleStopProcess, handleListProcesses,
    handleInstallPackage, check_react, executeCommand, launch, startProcess,
    try_catch, bind, throw_if, deref, deref_null, lift, ret, throw, get_state,
    put_state in *;
  cbn [fst snd] in *.

(* Split on an innermost scrutinee of the goal. *)
Ltac break_match :=
  match goal with
  | |- context [match ?x with _ => _ end] =>
      lazymatch x with
      | context [match _ with _ => _ end] => fail
      | _ => destruct x eqn:?; cbn [fst snd] in *
      end
  end.

Lemma Forall2_refl {A} (R : A -> A -> Prop) l : (forall x, R x x) -> Forall2 R l l.
Proof. intros H. induction l; constructor; auto. Qed.

Lemma Forall2_update {A} (R : A -> A -> Prop) n f l :
  (forall x, R x x) -> (forall x, R x (f x)) -> Forall2 R l (update n f l).
Proof.
  intros Hr Hf. revert n. induction l; intros [|n]; simpl; constructor; auto.
  now apply Forall2_refl.
Qed.

Lemma kill_twice c : kill (kill c) = kill c.
Proof. unfold kill. destruct (handle_open c) eqn:H; cbn; now rewrite ?H. Qed.

Lemma kills_compose l1 l2 l3 :
  Forall2 (fun c c' => c' = c \/ c' = kill c) l1 l2 ->
  Forall2 (fun c c' => c' = c \/ c' = kill c) l2 l3 ->
  Forall2 (fun c c' => c' = c \/ c' = kill c) l1 l3.
Proof.
  intros U. revert l3. induction U as [|c c1 cs cs1 R U IHU]; intros l3 F.
  - inversion F. constructor.
  - inversion F as [|c1' c2 cs1' cs2 R2 F2]; subst. constructor; auto.
    destruct R as [->| ->]; destruct R2 as [->| ->]; auto.
    right. apply kill_twice.
Qed.

Lemma cleanup_kills entries cs :
  Forall2 (fun c c' => c' = c \/ c' = kill c) cs (cleanup entries cs).
Proof.
  revert cs. induction entries as [|[k info] entries IH]; intros cs; simpl.
  - apply Forall2_refl. now left.
  - apply kills_compose with (update (process info) kill cs); auto.
    apply Forall2_update; auto.
Qed.

Lemma cleanup_quiet entries cs : Forall2 child_step cs (cleanup entries cs).
Proof.
  eapply Forall2_impl; [|apply cleanup_kills].
  intros c c' [->| ->]; constructor.
Qed.

Lemma list_loop_state now entries acc st : fst (list_loop now entries acc st) = st.
Proof.
  revert acc. induction entries as [|[k info] entries IH]; intros acc; simpl; auto.
  unfold_handler.
  destruct (nth_error (children st) (process info)); cbn [fst snd]; auto.
Qed.

Lemma same_state_quiet st ev :
  step st ev = st -> launched_id (answer st ev) = None -> quiet st ev.
Proof.
  intros E L. unfold quiet. rewrite E. repeat split; auto.
  apply Forall2_refl. constructor.
Qed.

Ltac finish_quiet :=
  left; cbn [fst snd launched_id runningProcesses children];
  repeat split; try reflexivity;
  solve [ apply Forall2_refl; constructor | apply Forall2_update; constructor ].

Ltac finish_launching :=
  right; do 5 eexists; split; reflexivity.

Lemma step_cases st ev : quiet st ev \/ launching st ev.
Proof.
  destruct ev.
  1-5, 7-10:
    unfold quiet, launching; unfold_handler; repeat break_match;
    first [ finish_quiet | finish_launching ].
  2: { left. repeat split; try reflexivity. apply cleanup_quiet. }
  apply or_introl, same_state_quiet.
  - unfold step, react, tool, handleListProcesses.
    unfold try_catch, bind, get_state, ret. cbn [fst snd].
    pose proof (list_loop_state now (JsMap.entries (runningProcesses st)) [] st) as E.
    destruct (list_loop _ _ _ _) as [st' [e|l]]; cbn [fst snd] in *; auto.
  - unfold answer, react, tool, handleListProcesses.
    unfold try_catch, bind, get_state, ret. cbn [fst snd].
    destruct (list_loop _ _ _ _) as [st' [e|l]]; reflexivity.
Qed.

(** No exception leaves a handler: every tool call gets a result. *)
Lemma answer_returns st ev : exists r, answer st ev = inr r.
Proof.
  destruct ev.
  1-5, 7-11: unfold_handler; repeat break_match; eexists; reflexivity.
  unfold answer, react, tool, handleListProcesses.
  unfold try_catch, bind, get_state, ret. cbn [fst snd].
  destruct (list_loop _ _ _ _) as [st' [e|l]]; eexists; reflexivity.
Qed.

Lemma launch_unfold rnd now command args cwd st :
  launch rnd now command args cwd st =
  {| runningProcesses :=
       JsMap.set (Js.substring 2 15 rnd)
         {| process := length (children st); command := command; args := args;
            cwd := cwd; output := EmptyString; errorOutput := EmptyString;
            startTime := now; processId := Js.substring 2 15 rnd |}
         (runningProcesses st);
     children := children st ++ [spawn command args cwd];
     frames := frames st ++ [{| var_output := EmptyString; var_errorOutput := EmptyString |}] |}.
Proof. reflexivity. Qed.

(** ** Invariants of the registry *)

Lemma keyed_step st ev : keyed st -> keyed (step st ev).
Proof.
  intros K. destruct (step_cases st ev) as [(R & _ & _) | (rnd & now & c & a & d & S & _)].
  - unfold keyed. now rewrite R.
  - rewrite S, launch_unfold. intros k info H. cbn [runningProcesses] in H.
    apply In_set in H. destruct H as [[= -> ->] | H]; auto.
Qed.

Lemma blank_step st ev : blank st -> blank (step st ev).
Proof.
  intros K. destruct (step_cases st ev) as [(R & _ & _) | (rnd & now & c & a & d & S & _)].
  - unfold blank. now rewrite R.
  - rewrite S, launch_unfold. intros k info H. cbn [runningProcesses] in H.
    apply In_set in H. destruct H as [[= -> ->] | H]; auto. now apply (K k).
Qed.

Lemma bound_step st ev : bound st -> bound (step st ev).
Proof.
  intros K. destruct (step_cases st ev) as [(R & C & _) | (rnd & now & c & a & d & S & _)].
  - unfold bound. rewrite R, <- (Forall2_length C). exact K.
  - rewrite S, launch_unfold. intros k info H. cbn [runningProcesses children] in *.
    rewrite length_app. simpl.
    apply In_set in H. destruct H as [[= -> ->] | H].
    + simpl. lia.
    + apply K in H. lia.
Qed.

Lemma distinct_step st ev : distinct st -> distinct (step st ev).
Proof.
  intros K. destruct (step_cases st ev) as [(R & _ & _) | (rnd & now & c & a & d & S & _)].
  - unfold distinct. now rewrite R.
  - rewrite S, launch_unfold. now apply NoDup_keys_set.
Qed.

Lemma run_invariant (P : State -> Prop) :
  (forall st ev, P st -> P (step st ev)) ->
  forall trace st, P st -> P (run st trace).
Proof.
  intros Hstep. induction trace as [|ev trace IH]; intros st H; simpl; auto.
Qed.

Lemma run_app st t1 t2 : run st (t1 ++ t2) = run (run st t1) t2.
Proof. apply fold_left_app. Qed.

Lemma reachable_keyed trace : keyed (run initial trace).
Proof. apply run_invariant; [apply keyed_step | intros k info []]. Qed.

Lemma reachable_blank trace : blank (run initial trace).
Proof. apply run_invariant; [apply blank_step | intros k info []]. Qed.

Lemma reachable_bound trace : bound (run initial trace).
Proof. apply run_invariant; [apply bound_step | intros k info []]. Qed.

Lemma reachable_distinct trace : distinct (run initial trace).
Proof. apply run_invariant; [apply distinct_step | constructor]. Qed.

(** The keys only grow, at the end. *)
Lemma keys_step st ev :
  exists extra,
    JsMap.keys (runningProcesses (step st ev)) =
    (JsMap.keys (runningProcesses st) ++ extra)%list.
Proof.
  destruct (step_cases st ev) as [(R & _ & _) | (rnd & now & c & a & d & S & _)].
  - exists []. now rewrite R, app_nil_r.
  - rewrite S, launch_unfold. cbn [runningProcesses]. rewrite keys_set.
    destruct (JsMap.has _ _).
    + exists []. now rewrite app_nil_r.
    + eexists. reflexivity.
Qed.

Lemma keys_run trace st :
  exists extra,
    JsMap.keys (runningProcesses (run st trace)) =
    (JsMap.keys (runningProcesses st) ++ extra)%list.
Proof.
  revert st. induction trace as [|ev trace IH]; intros st; simpl.
  - exists []. now rewrite app_nil_r.
  - destruct (IH (step st ev)) as (e2 & E2). destruct (keys_step st ev) as (e1 & E1).
    exists (e1 ++ e2)%list. now rewrite E2, E1, app_assoc.
Qed.

(** The keys are the identifiers handed out, and nothing else. *)
Lemma keys_launches trace st pid :
  In pid (JsMap.keys (runningProcesses (run st trace))) <->
  In pid (JsMap.keys (runningProcesses st)) \/ In pid (launches st trace).
Proof.
  revert st. induction trace as [|ev trace IH]; intros st; simpl.
  - tauto.
  - rewrite IH.
    destruct (step_cases st ev) as [(R & _ & L) | (rnd & now & c & a & d & S & L)];
      rewrite L.
    + rewrite R. tauto.
    + rewrite S at 1. rewrite launch_unfold. cbn [runningProcesses].
      rewrite keys_set. destruct (JsMap.has _ _) eqn:E.
      * apply has_In_keys in E. simpl. intuition (subst; auto).
      * rewrite in_app_iff. simpl. tauto.
Qed.

(** With identifiers that never repeat, the keys are the identifiers
    handed out, in the order of the launches. *)
Lemma keys_fresh_launches trace st :
  NoDup (JsMap.keys (runningProcesses st) ++ launches st trace) ->
  JsMap.keys (runningProcesses (run st trace)) =
  (JsMap.keys (runningProcesses st) ++ launches st trace)%list.
Proof.
  revert st. induction trace as [|ev trace IH]; intros st; simpl.
  - now rewrite app_nil_r.
  - destruct (step_cases st ev) as [(R & _ & L) | (rnd & now & c & a & d & S & L)];
      rewrite L; intros ND.
    + rewrite IH; rewrite R; auto.
    + assert (K : JsMap.keys (runningProcesses (step st ev)) =
                  (JsMap.keys (runningProcesses st) ++ [Js.substring 2 15 rnd])%list).
      { rewrite S, launch_unfold. cbn [runningProcesses]. rewrite keys_set.
        destruct (JsMap.has _ _) eqn:E; auto.
        apply has_In_keys in E. apply NoDup_remove_2 in ND.
        exfalso. apply ND. apply in_app_iff. now left. }
      rewrite IH; rewrite K, <- app_assoc; auto.
Qed.

(** ** Child objects along a trace *)

Lemma closed_child_fixed c c' :
  child_step c c' -> handle_open c = false -> c' = c.
Proof.
  intros [| |code signal] H; auto; unfold kill, onexit; now rewrite H.
Qed.

Lemma Forall2_nth_error {A} (R : A -> A -> Prop) l l' h c :
  Forall2 R l l' -> nth_error l h = Some c ->
  exists c', nth_error l' h = Some c' /\ R c c'.
Proof.
  intros F. revert h. induction F; intros [|h]; simpl; try discriminate.
  - intros [= ->]. eauto.
  - apply IHF.
Qed.

Lemma closed_child_step st ev h c :
  nth_error (children st) h = Some c -> handle_open c = false ->
  nth_error (children (step st ev)) h = Some c.
Proof.
  intros N H.
  destruct (step_cases st ev) as [(_ & C & _) | (rnd & now & cm & a & d & S & _)].
  - destruct (Forall2_nth_error _ _ _ _ _ C N) as (c' & N' & R).
    now rewrite (closed_child_fixed _ _ R H) in N'.
  - rewrite S, launch_unfold. cbn [children].
    rewrite nth_error_app1; auto. apply nth_error_Some. congruence.
Qed.

Lemma closed_child_run trace st h c :
  nth_error (children st) h = Some c -> handle_open c = false ->
  nth_error (children (run st trace)) h = Some c.
Proof.
  revert st. induction trace as [|ev trace IH]; intros st N H; simpl; auto.
  apply IH; auto. now apply closed_child_step.
Qed.

Lemma update_fixed {A} n (f : A -> A) l c :
  nth_error l n = Some c -> f c = c -> update n f l = l.
Proof.
  revert n. induction l as [|x l IH]; intros [|n]; simpl; try discriminate.
  - intros [= ->] ->. reflexivity.
  - intros N F. f_equal. now apply IH.
Qed.

(** ** The answers of [list-processes] *)

Lemma list_loop_bound now st entries acc :
  (forall k info, In (k, info) entries -> process info < length (children st)) ->
  exists snaps,
    list_loop now entries acc st = (st, inr (acc ++ snaps)%list) /\
    map snap_processId snaps = map fst entries.
Proof.
  revert acc. induction entries as [|[k info] entries IH]; intros acc B; simpl.
  - exists []. now rewrite app_nil_r.
  - unfold bind, get_state, deref.
    destruct (nth_error (children st) (process info)) as [c|] eqn:N.
    + unfold ret at 1. cbn [fst snd].
      destruct (IH (acc ++ [{| snap_processId := k;
                               snap_command := command_line info;
                               snap_directory := cwd info;
                               snap_isRunning :=
                                 match exitCode c with None => true | Some _ => false end;
                               snap_exitCode := exitCode c;
                               snap_startTime := startTime info;
                               snap_runTime := runTime now info |}])%list)
        as (snaps & E & M).
      { intros k' info' H. apply (B k'). now right. }
      rewrite E. eexists (_ :: snaps). rewrite <- app_assoc. split; [reflexivity|].
      simpl. now rewrite M.
    + exfalso. apply nth_error_None in N.
      specialize (B k info (or_introl eq_refl)). lia.
Qed.

Lemma list_answer now st :
  bound st ->
  exists snaps,
    answer st (ListProcesses now) = inr (Some (Listed snaps (length snaps))) /\
    map snap_processId snaps = JsMap.keys (runningProcesses st).
Proof.
  intros B.
  destruct (list_loop_bound now st (JsMap.entries (runningProcesses st)) [] B)
    as (snaps & E & M).
  exists snaps. split; auto.
  unfold answer, react, tool, handleListProcesses, try_catch, bind, get_state, ret.
  cbn [fst snd]. rewrite E. reflexivity.
Qed.

(** ** The answers of [get-process-output] and [stop-process] *)

Lemma status_known st now pid info c :
  Js.falsy pid = false ->
  JsMap.get pid (runningProcesses st) = Some info ->
  nth_error (children st) (process info) = Some c ->
  answer st (get_process_output pid now) = inr (Some (status_of now pid info c)).
Proof.
  intros F G N. unfold get_process_output. unfold_handler.
  cbn [GetProcessOutputSchema.processId]. unfold JsMap.has.
  rewrite F, G. cbn [negb fst snd]. now rewrite N.
Qed.

Lemma status_unknown st now pid :
  JsMap.has pid (runningProcesses st) = false ->
  exists e, answer st (get_process_output pid now) = inr (Some (Failed e)) /\ names e pid.
Proof.
  intros H. unfold get_process_output. unfold_handler.
  cbn [GetProcessOutputSchema.processId].
  destruct (Js.falsy pid) eqn:F; cbn [fst snd]; rewrite ?H; cbn [negb fst snd message_of].
  - eexists. split; [reflexivity|]. apply falsy_iff in F. subst.
    eexists _, EmptyString. simpl. symmetry. apply string_app_nil_r.
  - eexists. split; [reflexivity|]. apply names_prefixed.
    apply (names_middle "Process with ID ").
Qed.

Lemma status_shape st now pid r :
  answer st (get_process_output pid now) = inr (Some r) ->
  (exists e, r = Failed e) \/
  (exists info c,
     In (pid, info) (JsMap.entries (runningProcesses st)) /\
     nth_error (children st) (process info) = Some c /\
     r = status_of now pid info c).
Proof.
  unfold get_process_output. unfold_handler.
  cbn [GetProcessOutputSchema.processId]. unfold JsMap.has.
  repeat break_match; intros [= <-]; try (left; eexists; reflexivity).
  all: right;
    match goal with
    | G : JsMap.get _ _ = Some ?p, N : nth_error _ _ = Some ?c |- _ =>
        exists p, c; split; [exact (get_In _ _ _ G)|split; [exact N|]]
    end.
  all: unfold status_of, isRunning;
    match goal with H : exitCode _ = _ |- _ => now rewrite H end.
Qed.

Lemma stop_known st pid info c :
  Js.falsy pid = false ->
  JsMap.get pid (runningProcesses st) = Some info ->
  nth_error (children st) (process info) = Some c ->
  react (stop_process pid) st =
  ({| runningProcesses := runningProcesses st;
      children := update (process info) kill (children st);
      frames := frames st |},
   inr (Some (stopped_of pid info))).
Proof.
  intros F G N. unfold stop_process. unfold_handler.
  cbn [StopProcessSchema.processId]. unfold JsMap.has.
  rewrite F, G. cbn [negb fst snd]. now rewrite N.
Qed.

Lemma stop_unknown st pid :
  JsMap.has pid (runningProcesses st) = false ->
  exists e, answer st (stop_process pid) = inr (Some (Failed e)) /\ names e pid.
Proof.
  intros H. unfold stop_process. unfold_handler.
  cbn [StopProcessSchema.processId].
  destruct (Js.falsy pid) eqn:F; cbn [fst snd]; rewrite ?H; cbn [negb fst snd message_of].
  - eexists. split; [reflexivity|]. apply falsy_iff in F. subst.
    eexists _, EmptyString. simpl. symmetry. apply string_app_nil_r.
  - eexists. split; [reflexivity|]. apply names_prefixed.
    apply (names_middle "Process with ID ").
Qed.

(** * The claims *)

(** C1 (the code does otherwise).  The claim: what a launched process
    writes to stdout is accumulated in its registered record, so that
    [get-process-output] returns it in [output].  On the code the record
    holds the string [output] had when the record was built, and the
    listener appends to the local variable only: every answer of
    [get-process-output] that is not an error has the empty [output]. *)
Theorem status_output_stays_empty trace now pid r :
  answer (run initial trace) (get_process_output pid now) = inr (Some r) ->
  error_field r = None ->
  status_output r = Some EmptyString.
Proof.
  intros A E. destruct (status_shape _ _ _ _ A) as [(e & ->) | (info & c & I & _ & ->)].
  - discriminate.
  - simpl. f_equal. now apply (reachable_blank trace pid info).
Qed.

Lemma status_output_stays_empty_witness :
  answer (run initial Sample.hello) (get_process_output "4fzyo82mvyr" 5000) =
    inr (Some (Status "4fzyo82mvyr" "npm install left-pad " "/srv/app" false (Some 0%Z)
                 EmptyString EmptyString 1000 "4 seconds")) /\
  status_output (Status "4fzyo82mvyr" "npm install left-pad " "/srv/app" false (Some 0%Z)
                   EmptyString EmptyString 1000 "4 seconds") = Some EmptyString.
Proof.
  split; [reflexivity|].
  apply (status_output_stays_empty Sample.hello 5000 "4fzyo82mvyr"); reflexivity.
Defined.

(** The text went to the variable of the closure and nowhere else. *)
Example hello_stays_in_the_closure :
  map var_output (frames (run initial Sample.hello)) = ["hello" ++ Sample.newline] /\
  map (fun e => output (snd e)) (runningProcesses (run initial Sample.hello)) = [EmptyString].
Proof. split; reflexivity. Qed.

(** C2 (the code does otherwise).  The claim: once the process of a
    registered id is gone, also when the signal of [stop-process] ended it,
    [get-process-output] reports [isRunning = false].  On the code
    [isRunning] is [exitCode === null], and the exit callback of a process
    ended by a signal sets [signalCode] and leaves [exitCode] null: after
    [stop-process] and the death of the process by the signal, every later
    status of that record says [isRunning = true]. *)
Theorem signalled_process_reported_running st pid info c code signal rest now :
  Js.falsy pid = false ->
  JsMap.get pid (runningProcesses st) = Some info ->
  nth_error (children st) (process info) = Some c ->
  handle_open c = true ->
  exitCode c = None ->
  Js.falsy signal = false ->
  JsMap.get pid
    (runningProcesses
       (run st (stop_process pid :: Exit (process info) code signal :: rest))) = Some info ->
  exists c',
    answer (run st (stop_process pid :: Exit (process info) code signal :: rest))
      (get_process_output pid now) = inr (Some (status_of now pid info c')) /\
    isRunning c' = true /\ signalCode c' = Some signal /\ handle_open c' = false.
Proof.
  intros F G N O X S G'.
  set (st1 := step st (stop_process pid)).
  set (st2 := step st1 (Exit (process info) code signal)).
  assert (N2 : nth_error (children st2) (process info) =
               Some (onexit code signal (kill c))).
  { unfold st2, st1, step at 1 2. rewrite (stop_known st pid info c F G N).
    unfold react, callback. cbn [fst children].
    rewrite !nth_error_update, Nat.eqb_refl, N. reflexivity. }
  assert (C : handle_open (onexit code signal (kill c)) = false /\
              exitCode (onexit code signal (kill c)) = None /\
              signalCode (onexit code signal (kill c)) = Some signal).
  { unfold onexit, kill. rewrite O. cbn [handle_open]. rewrite S. cbn. auto. }
  destruct C as (C1 & C2 & C3).
  exists (onexit code signal (kill c)).
  change (run st (stop_process pid :: Exit (process info) code signal :: rest))
    with (run st2 rest) in *.
  split; [|split; [|split]]; auto.
  - apply status_known; auto. now apply closed_child_run.
  - unfold isRunning. now rewrite C2.
Qed.

Lemma signalled_process_reported_running_witness :
  exists c',
    answer
      (run (run initial [Sample.install "0.4fzyo82mvyr" 1000])
         (stop_process "4fzyo82mvyr" :: Exit 0 0 "SIGTERM" ::
          [get_process_output "4fzyo82mvyr" 2000; get_process_output "4fzyo82mvyr" 9000]))
      (get_process_output "4fzyo82mvyr" 60000) =
    inr (Some (status_of 60000 "4fzyo82mvyr"
                 (Sample.left_pad "0.4fzyo82mvyr" 1000) c')) /\
    isRunning c' = true /\ signalCode c' = Some "SIGTERM" /\ handle_open c' = false.
Proof.
  apply (signalled_process_reported_running
           (run initial [Sample.install "0.4fzyo82mvyr" 1000])
           "4fzyo82mvyr" (Sample.left_pad "0.4fzyo82mvyr" 1000)
           (spawn "npm install left-pad" [] "/srv/app") 0 "SIGTERM");
    reflexivity.
Defined.

(** The same trace, evaluated: a minute after the process was ended by
    SIGTERM its status still says [isRunning = true]. *)
Example terminated_install_still_running :
  answer
    (run initial [Sample.install "0.4fzyo82mvyr" 1000;
                  stop_process "4fzyo82mvyr"; Exit 0 0 "SIGTERM"])
    (get_process_output "4fzyo82mvyr" 60000) =
  inr (Some (Status "4fzyo82mvyr" "npm install left-pad " "/srv/app" true None
               EmptyString EmptyString 1000 "59 seconds")).
Proof. reflexivity. Qed.

(** The presets [run-react-app] and [install-package] check their
    directory before anything else is done: when it does not exist they
    answer with an error and leave the state as it was. *)
Lemma siblings_check_the_directory host rnd now st dir :
  existsSync host dir = false ->
  (forall params, RunReactAppSchema.projectPath params = dir ->
     exists e, handleRunReactApp host rnd now params st = (st, inr (Failed e))) /\
  (forall params,
     Js.or_else (InstallPackageSchema.directory params) (process_cwd host) = dir ->
     exists e, handleInstallPackage host rnd now params st = (st, inr (Failed e))).
Proof.
  intros E. split.
  - intros params <-. unfold_handler.
    destruct (Js.falsy _); cbn [fst snd]; [eexists; reflexivity|].
    rewrite E. cbn [negb fst snd]. eexists; reflexivity.
  - intros params P. unfold_handler.
    destruct (Js.falsy _); cbn [fst snd]; [eexists; reflexivity|].
    rewrite P, E. cbn [negb fst snd]. eexists; reflexivity.
Qed.

(** C3 (the code does otherwise).  The claim: a launch requires its
    working directory to exist and fails with a directory-not-found error
    when it does not, so that no preset starts a process in a base
    directory that does not exist.  On the code [run-react-app],
    [install-package] and [run-command] check their directory first and
    answer [Directory ... does not exist]; [create-react-app] checks the
    project directory only: given a base directory that does not exist,
    it calls [startProcess] with that directory, stores the record and
    answers with the identifier.  (The runtime then reports the spawn that
    failed by an [error] event of the child; that comes after the handler
    has returned and is outside the model.) *)
Theorem create_react_app_skips_the_directory_check :
  existsSync Sample.host "/nowhere" = false /\
  react (CreateReactApp Sample.host "0.i" 1000
           {| CreateReactAppSchema.name := "app";
              CreateReactAppSchema.template := None;
              CreateReactAppSchema.directory := Some "/nowhere" |}) initial =
  ({| runningProcesses :=
        [("i", {| process := 0; command := "npx create-react-app app"; args := [];
                  cwd := "/nowhere"; output := EmptyString;
                  errorOutput := EmptyString; startTime := 1000;
                  processId := "i" |})];
      children := [spawn "npx create-react-app app" [] "/nowhere"];
      frames := [{| var_output := EmptyString; var_errorOutput := EmptyString |}] |},
   inr (Some (Created ("Creating React app " ++ Js.quoted "app" ++ " in /nowhere/app")
                "i" "/nowhere/app"))) /\
  react (RunReactApp Sample.host "0.i" 1000
           {| RunReactAppSchema.projectPath := "/nowhere" |}) initial =
  (initial,
   inr (Some (Failed "Error running React app: Directory /nowhere does not exist"))) /\
  react (InstallPackage Sample.host "0.i" 1000
           {| InstallPackageSchema.packageName := "left-pad";
              InstallPackageSchema.directory := Some "/nowhere";
              InstallPackageSchema.dev := None |}) initial =
  (initial,
   inr (Some (Failed "Error installing package: Directory /nowhere does not exist"))) /\
  react (RunCommand Sample.host
           {| exit_status := 0; exit_signal := None;
              exec_stdout := EmptyString; exec_stderr := EmptyString |}
           {| RunCommandSchema.command := "npx create-react-app app";
              RunCommandSchema.directory := Some "/nowhere" |}) initial =
  (initial,
   inr (Some (FailedCommand "Error executing command: Directory /nowhere does not exist"
                EmptyString))).
Proof. repeat split; reflexivity. Qed.

(** C4 (as stated, false on the code).  The identifier is thirteen
    characters of [Math.random().toString(36)], and nothing compares it
    with the keys of the registry: when two launches draw the same number,
    the second record replaces the first, and two launches leave one
    record under one identifier. *)
Lemma repeated_draw_replaces_record :
  launches initial [Sample.install "0.i" 1000; Sample.run_app "0.i" 2000] = ["i"; "i"] /\
  answer (run initial [Sample.install "0.i" 1000; Sample.run_app "0.i" 2000])
    (ListProcesses 3000) =
  inr (Some (Listed [{| snap_processId := "i"; snap_command := "npm start";
                        snap_directory := "/srv/app"; snap_isRunning := true;
                        snap_exitCode := None; snap_startTime := 2000;
                        snap_runTime := "1 seconds" |}] 1)).
Proof. split; reflexivity. Qed.

(** C4, amended.  For every trace whose launches drew identifiers that
    are pairwise distinct, [list-processes] returns as many records as
    there were launches, and their identifiers are those handed out, in the
    order of the launches. *)
Theorem fresh_launches_all_listed trace now :
  NoDup (launches initial trace) ->
  exists snaps,
    answer (run initial trace) (ListProcesses now) =
      inr (Some (Listed snaps (length (launches initial trace)))) /\
    map snap_processId snaps = launches initial trace /\
    NoDup (map snap_processId snaps).
Proof.
  intros ND.
  destruct (list_answer now (run initial trace) (reachable_bound trace))
    as (snaps & A & M).
  pose proof (keys_fresh_launches trace initial ND) as K. simpl in K.
  exists snaps. rewrite M, K. repeat split; auto.
  rewrite A. do 3 f_equal. now rewrite <- (length_map snap_processId), M, K.
Qed.

Lemma fresh_launches_all_listed_witness :
  exists snaps,
    answer (run initial [Sample.install "0.i" 1000; stop_process "i";
                         Sample.run_app "0.4fzyo82mvyr" 2000])
      (ListProcesses 3000) =
      inr (Some (Listed snaps
                   (length (launches initial
                              [Sample.install "0.i" 1000; stop_process "i";
                               Sample.run_app "0.4fzyo82mvyr" 2000])))) /\
    map snap_processId snaps =
      launches initial [Sample.install "0.i" 1000; stop_process "i";
                        Sample.run_app "0.4fzyo82mvyr" 2000] /\
    NoDup (map snap_processId snaps).
Proof.
  apply (fresh_launches_all_listed
           [Sample.install "0.i" 1000; stop_process "i";
            Sample.run_app "0.4fzyo82mvyr" 2000] 3000).
  repeat constructor; simpl; intuition discriminate.
Defined.

(** C5.  When the command given to [run-command] exits with a status
    other than 0, the answer is the object with the keys [error] and
    [stderr], never the one with [command], [directory], [output] and
    [stderr]; the state is untouched.  When the command did run, [stderr]
    is what it wrote there. *)
Theorem nonzero_exit_is_reported host o params st :
  exit_status o <> 0%Z ->
  exists e s,
    handleRunCommand host o params st = (st, inr (FailedCommand e s)) /\
    (Js.falsy (RunCommandSchema.command params) = false ->
     existsSync host
       (Js.or_else (RunCommandSchema.directory params) (process_cwd host)) = true ->
     s = exec_stderr o).
Proof.
  intros NZ. unfold_handler.
  destruct (Js.falsy _); cbn [fst snd].
  { do 2 eexists. split; [reflexivity | discriminate]. }
  destruct (existsSync _ _); cbn [negb fst snd].
  2: { do 2 eexists. split; [reflexivity | discriminate]. }
  unfold exec_error.
  destruct (exit_signal o); [|destruct (Z.eqb_spec (exit_status o) 0); [contradiction|]];
    cbn [fst snd]; do 2 eexists; (split; [reflexivity|]); intros _ _;
    unfold stderr_of, Js.or_else; now destruct (exec_stderr o).
Qed.

Lemma nonzero_exit_is_reported_witness :
  exists e s,
    handleRunCommand Sample.host
      {| exit_status := 2; exit_signal := None;
         exec_stdout := "compiling"; exec_stderr := "make: *** [test] Error 2" |}
      {| RunCommandSchema.command := "make test";
         RunCommandSchema.directory := Some "/srv/app" |} initial =
    (initial, inr (FailedCommand e s)) /\
    (Js.falsy "make test" = false ->
     existsSync Sample.host (Js.or_else (Some "/srv/app") "/srv") = true ->
     s = "make: *** [test] Error 2").
Proof.
  apply (nonzero_exit_is_reported Sample.host
           {| exit_status := 2; exit_signal := None;
              exec_stdout := "compiling"; exec_stderr := "make: *** [test] Error 2" |}
           {| RunCommandSchema.command := "make test";
              RunCommandSchema.directory := Some "/srv/app" |} initial).
  discriminate.
Defined.

(** The text of that [error] does not name the failure: the handler reads
    [message] on the object [{ error, stderr }]. *)
Example failed_command_message :
  handleRunCommand Sample.host
    {| exit_status := 2; exit_signal := None;
       exec_stdout := "compiling"; exec_stderr := "make: *** [test] Error 2" |}
    {| RunCommandSchema.command := "make test";
       RunCommandSchema.directory := Some "/srv/app" |} initial =
  (initial,
   inr (FailedCommand "Error executing command: undefined" "make: *** [test] Error 2")).
Proof. reflexivity. Qed.

Lemma check_react_rejects j st :
  declares_react j = false -> exists e, check_react j st = (st, inl e).
Proof.
  unfold declares_react, check_react, bind, deref_null, throw_if, throw, ret.
  destruct j as [| | | | |fields]; cbn; try (intros _; eexists; reflexivity).
  destruct (Js.field "dependencies" fields) as [[| | | | |deps]|]; cbn;
    try (intros _; eexists; reflexivity).
  - destruct b; cbn; eexists; reflexivity.
  - destruct (Z.eqb n 0); cbn; eexists; reflexivity.
  - destruct (Js.falsy s); cbn; eexists; reflexivity.
  - destruct (Js.field "react" deps); [discriminate|]. intros _. eexists; reflexivity.
Qed.

(** C6.  [run-react-app] on a directory without [package.json], or whose
    [package.json] does not declare [react], answers with an error; the
    state after the call is the state before it: no child was created, the
    registry is the same, and [list-processes] answers the same. *)
Theorem run_app_rejects_non_react host rnd now params st :
  no_react_manifest host (RunReactAppSchema.projectPath params) ->
  (exists e, answer st (RunReactApp host rnd now params) = inr (Some (Failed e))) /\
  step st (RunReactApp host rnd now params) = st /\
  children (step st (RunReactApp host rnd now params)) = children st /\
  forall t, answer (step st (RunReactApp host rnd now params)) (ListProcesses t) =
            answer st (ListProcesses t).
Proof.
  intros H.
  assert (E : exists e, react (RunReactApp host rnd now params) st =
                        (st, inr (Some (Failed e)))).
  { unfold react, tool, handleRunReactApp, try_catch, bind, throw_if, lift, ret, throw.
    destruct (Js.falsy _); cbn [fst snd]; [eexists; reflexivity|].
    destruct (existsSync host (RunReactAppSchema.projectPath params));
      cbn [negb fst snd]; [|eexists; reflexivity].
    destruct H as [H | (j & R & D)].
    - rewrite H. cbn [negb fst snd]. eexists; reflexivity.
    - destruct (existsSync host _); cbn [negb fst snd]; [|eexists; reflexivity].
      rewrite R. destruct (check_react_rejects j st D) as (e & ->).
      eexists; reflexivity. }
  destruct E as (e & E). unfold answer, step. rewrite E. cbn [fst snd].
  repeat split; eauto.
Qed.

Lemma run_app_rejects_non_react_witness :
  (exists e,
     answer (run initial [Sample.install "0.i" 1000])
       (RunReactApp Sample.host "0.j" 2000
          {| RunReactAppSchema.projectPath := "/srv/empty" |}) =
     inr (Some (Failed e))) /\
  step (run initial [Sample.install "0.i" 1000])
    (RunReactApp Sample.host "0.j" 2000
       {| RunReactAppSchema.projectPath := "/srv/empty" |}) =
  run initial [Sample.install "0.i" 1000].
Proof.
  destruct (run_app_rejects_non_react Sample.host "0.j" 2000
              {| RunReactAppSchema.projectPath := "/srv/empty" |}
              (run initial [Sample.install "0.i" 1000]))
    as (A & S & _).
  - left. reflexivity.
  - split; assumption.
Defined.

(** A manifest that declares other dependencies only is refused as
    well. *)
Example run_app_rejects_express_project :
  react (RunReactApp
           {| existsSync := fun _ => true;
              readJSON := fun _ =>
                inr (Js.JObj [("dependencies", Js.JObj [("express", Js.JStr "^4.18.0")])]);
              homedir := "/home/dev"; process_cwd := "/srv";
              path_join := fun a b => a ++ "/" ++ b |}
           "0.i" 1000 {| RunReactAppSchema.projectPath := "/srv/api" |}) initial =
  (initial,
   inr (Some (Failed ("Error running React app: " ++
                      "Not a valid React app: react dependency not found in package.json")))).
Proof. reflexivity. Qed.

(** C7 (as stated, false on the code).  [Math.random()] may return 0,
    whose rendering in base 36 is the one character [0]; the identifier,
    cut from the third character on, is then the empty string, and
    [stop-process] refuses an empty identifier before it looks at the
    registry, also when the process registered under it has exited. *)
Lemma stop_refuses_the_empty_identifier :
  launches initial [Sample.install "0" 1000] = [EmptyString] /\
  JsMap.has EmptyString
    (runningProcesses (run initial [Sample.install "0" 1000; Exit 0 0 EmptyString])) = true /\
  map handle_open (children (run initial [Sample.install "0" 1000; Exit 0 0 EmptyString])) =
    [false] /\
  answer (run initial [Sample.install "0" 1000; Exit 0 0 EmptyString])
    (stop_process EmptyString) =
  inr (Some (Failed "Error stopping process: Process ID is required")).
Proof. repeat split; reflexivity. Qed.

(** C7, amended.  For every registered identifier other than the empty
    string whose process has exited (its exit callback has run),
    [stop-process] answers with the success object, changes nothing, and a
    second call answers with the same object. *)
Theorem stop_of_exited_is_idempotent st pid info c :
  Js.falsy pid = false ->
  JsMap.get pid (runningProcesses st) = Some info ->
  nth_error (children st) (process info) = Some c ->
  handle_open c = false ->
  react (stop_process pid) st = (st, inr (Some (stopped_of pid info))) /\
  react (stop_process pid) (step st (stop_process pid)) =
    (st, inr (Some (stopped_of pid info))) /\
  error_field (stopped_of pid info) = None.
Proof.
  intros F G N H.
  assert (E : react (stop_process pid) st = (st, inr (Some (stopped_of pid info)))).
  { rewrite (stop_known st pid info c F G N).
    rewrite (update_fixed _ _ _ c N); [now destruct st|].
    unfold kill. now rewrite H. }
  unfold step. rewrite E. cbn [fst]. auto.
Qed.

Lemma stop_of_exited_is_idempotent_witness :
  react (stop_process "i") (run initial [Sample.install "0.i" 1000; Exit 0 0 EmptyString]) =
    (run initial [Sample.install "0.i" 1000; Exit 0 0 EmptyString],
     inr (Some (Stopped "Process i stopped" "npm install left-pad " "/srv/app"))) /\
  react (stop_process "i")
    (step (run initial [Sample.install "0.i" 1000; Exit 0 0 EmptyString]) (stop_process "i")) =
    (run initial [Sample.install "0.i" 1000; Exit 0 0 EmptyString],
     inr (Some (Stopped "Process i stopped" "npm install left-pad " "/srv/app"))) /\
  error_field (Stopped "Process i stopped" "npm install left-pad " "/srv/app") = None.
Proof.
  apply (stop_of_exited_is_idempotent
           (run initial [Sample.install "0.i" 1000; Exit 0 0 EmptyString])
           "i" (Sample.left_pad "0.i" 1000)
           (onexit 0 EmptyString (spawn "npm install left-pad" [] "/srv/app")));
    reflexivity.
Defined.

(** C8.  For an identifier that no launch has handed out,
    [get-process-output] and [stop-process] both return (no exception
    leaves the handler) an object with an [error] whose text contains the
    identifier. *)
Theorem unknown_id_gets_an_error_result trace pid now :
  ~ In pid (launches initial trace) ->
  (exists e,
     answer (run initial trace) (get_process_output pid now) = inr (Some (Failed e)) /\
     names e pid) /\
  (exists e,
     answer (run initial trace) (stop_process pid) = inr (Some (Failed e)) /\
     names e pid).
Proof.
  intros NL.
  assert (H : JsMap.has pid (runningProcesses (run initial trace)) = false).
  { apply has_false_keys. intros K. apply keys_launches in K.
    destruct K as [[]|K]. contradiction. }
  split; [now apply status_unknown | now apply stop_unknown].
Qed.

Lemma unknown_id_gets_an_error_result_witness :
  (exists e,
     answer (run initial [Sample.install "0.i" 1000]) (get_process_output "k3x9" 2000) =
       inr (Some (Failed e)) /\
     names e "k3x9") /\
  (exists e,
     answer (run initial [Sample.install "0.i" 1000]) (stop_process "k3x9") =
       inr (Some (Failed e)) /\
     names e "k3x9").
Proof.
  apply (unknown_id_gets_an_error_result [Sample.install "0.i" 1000] "k3x9" 2000).
  simpl. intuition discriminate.
Defined.

(** The texts themselves. *)
Example unknown_id_messages :
  answer (run initial [Sample.install "0.i" 1000]) (get_process_output "k3x9" 2000) =
    inr (Some (Failed "Error getting process output: Process with ID k3x9 not found")) /\
  answer (run initial [Sample.install "0.i" 1000]) (stop_process "k3x9") =
    inr (Some (Failed "Error stopping process: Process with ID k3x9 not found")).
Proof. split; reflexivity. Qed.

(** C9 (as stated, false on the code).  A launch that draws an identifier
    already in the registry replaces the record stored under it, in the
    place of the old one: after three launches [list-processes] shows two
    records, and the record of the third launch comes before the record of
    the second. *)
Lemma relaunch_takes_the_place_of_a_record :
  launches initial
    [Sample.install "0.a" 1000; Sample.install "0.b" 2000; Sample.run_app "0.a" 3000] =
    ["a"; "b"; "a"] /\
  answer
    (run initial
       [Sample.install "0.a" 1000; Sample.install "0.b" 2000; Sample.run_app "0.a" 3000])
    (ListProcesses 4000) =
  inr (Some (Listed
               [{| snap_processId := "a"; snap_command := "npm start";
                   snap_directory := "/srv/app"; snap_isRunning := true;
                   snap_exitCode := None; snap_startTime := 3000;
                   snap_runTime := "1 seconds" |};
                {| snap_processId := "b"; snap_command := "npm install left-pad ";
                   snap_directory := "/srv/app"; snap_isRunning := true;
                   snap_exitCode := None; snap_startTime := 2000;
                   snap_runTime := "2 seconds" |}] 2)).
Proof. split; reflexivity. Qed.

(** C9, amended.  [list-processes] never fails; it returns one snapshot
    for each key of the registry, in the order of the map, with [count]
    the number of snapshots.  The keys are the identifiers handed out
    since the start, each once, and no event removes or moves a key: the
    keys after any further events are the keys before, followed by the new
    ones. *)
Theorem list_follows_the_registry trace now :
  exists snaps,
    answer (run initial trace) (ListProcesses now) =
      inr (Some (Listed snaps (length snaps))) /\
    map snap_processId snaps = JsMap.keys (runningProcesses (run initial trace)) /\
    NoDup (map snap_processId snaps) /\
    (forall pid, In pid (launches initial trace) <-> In pid (map snap_processId snaps)) /\
    (forall more, exists extra,
       JsMap.keys (runningProcesses (run initial (trace ++ more))) =
       (map snap_processId snaps ++ extra)%list).
Proof.
  destruct (list_answer now (run initial trace) (reachable_bound trace))
    as (snaps & A & M).
  exists snaps. rewrite M. repeat split; auto.
  - apply reachable_distinct.
  - intros L. apply keys_launches. now right.
  - intros K. apply keys_launches in K. now destruct K as [[]|K].
  - intros more. rewrite run_app. apply keys_run.
Qed.

(** C10.  Every event keeps each record of the registry under the key
    that is its own [processId]; and the identifier a launch hands to its
    caller is the key of the record it has just stored. *)
Theorem record_sits_under_its_processId st ev :
  keyed st ->
  keyed (step st ev) /\
  forall pid, launched_id (answer st ev) = Some pid ->
    exists info,
      JsMap.get pid (runningProcesses (step st ev)) = Some info /\
      processId info = pid.
Proof.
  intros K. split; [now apply keyed_step|].
  intros pid L.
  destruct (step_cases st ev) as [(_ & _ & Q) | (rnd & now & c & a & d & S & L')].
  - congruence.
  - rewrite L' in L. injection L as <-.
    rewrite S, launch_unfold. cbn [runningProcesses].
    rewrite get_set_same. eexists. split; reflexivity.
Qed.

Lemma record_sits_under_its_processId_witness :
  keyed (step (run initial [Sample.install "0.i" 1000]) (Sample.run_app "0.i" 2000)) /\
  exists info,
    JsMap.get "i"
      (runningProcesses
         (step (run initial [Sample.install "0.i" 1000]) (Sample.run_app "0.i" 2000))) =
      Some info /\
    processId info = "i".
Proof.
  destruct (record_sits_under_its_processId
              (run initial [Sample.install "0.i" 1000]) (Sample.run_app "0.i" 2000))
    as (K & L).
  - intros k info [[= <- <-]|[]]. reflexivity.
  - split; [exact K|]. apply L. reflexivity.
Defined.

(** In every state the server can reach, each record sits under its own
    identifier. *)
Corollary registry_keyed_on_every_trace trace pid info :
  JsMap.get pid (runningProcesses (run initial trace)) = Some info ->
  processId info = pid.
Proof. intros G. apply (reachable_keyed trace). now apply get_In. Qed.

(** * Further properties of the code *)

(** ** The listeners of [startProcess] *)

Lemma frame_step st ev h f :
  nth_error (frames st) h = Some f ->
  nth_error (frames (step st ev)) h =
  Some {| var_output := var_output f ++ stdout_chunks h [ev];
          var_errorOutput := var_errorOutput f ++ stderr_chunks h [ev] |}.
Proof.
  intros N.
  assert (Same : Some f = Some {| var_output := var_output f ++ EmptyString;
                                  var_errorOutput := var_errorOutput f ++ EmptyString |}).
  { rewrite !string_app_nil_r. now destruct f. }
  assert (App : forall x, nth_error (frames st ++ [x]) h = Some f).
  { intros x. rewrite nth_error_app1; auto. apply nth_error_Some. congruence. }
  destruct ev; cbn [stdout_chunks stderr_chunks].
  1-5, 7: unfold_handler; repeat break_match; cbn [frames]; rewrite ?App, ?N; exact Same.
  - unfold step, react, tool, handleListProcesses, try_catch, bind, get_state, ret.
    cbn [fst snd].
    pose proof (list_loop_state now (JsMap.entries (runningProcesses st)) [] st) as E.
    destruct (list_loop _ _ _ _) as [st' [e|l]]; cbn [fst snd] in *; subst;
      rewrite N; exact Same.
  - unfold step, react, callback. cbn [fst frames]. rewrite nth_error_update.
    rewrite (Nat.eqb_sym h h0). destruct (Nat.eqb h0 h); rewrite N; cbn.
    + now rewrite !string_app_nil_r.
    + exact Same.
  - unfold step, react, callback. cbn [fst frames]. rewrite nth_error_update.
    rewrite (Nat.eqb_sym h h0). destruct (Nat.eqb h0 h); rewrite N; cbn.
    + now rewrite !string_app_nil_r.
    + exact Same.
  - unfold step, react, callback. cbn [fst frames]. rewrite N. exact Same.
  - unfold step, react, callback. cbn [fst frames]. rewrite N. exact Same.
Qed.

Lemma frame_run trace st h f :
  nth_error (frames st) h = Some f ->
  nth_error (frames (run st trace)) h =
  Some {| var_output := var_output f ++ stdout_chunks h trace;
          var_errorOutput := var_errorOutput f ++ stderr_chunks h trace |}.
Proof.
  revert st f. induction trace as [|ev trace IH]; intros st f N.
  - simpl. rewrite !string_app_nil_r. now destruct f.
  - simpl run. rewrite (IH _ _ (frame_step st ev h f N)). cbn [var_output var_errorOutput].
    rewrite !string_app_assoc. do 2 f_equal.
    + destruct ev; cbn [stdout_chunks]; try reflexivity.
      destruct (Nat.eqb h0 h); cbn; now rewrite ?string_app_nil_r.
    + destruct ev; cbn [stderr_chunks]; try reflexivity.
      destruct (Nat.eqb h0 h); cbn; now rewrite ?string_app_nil_r.
Qed.

(** X1.  Whatever else happens on the server, the variable [output] of
    the listeners of child [h] grows by exactly the chunks that child
    wrote to stdout, in the order they arrived, and [errorOutput] by its
    stderr chunks; chunks of other children and tool calls never reach
    it. *)
Theorem frame_accumulates_own_chunks trace st h f :
  nth_error (frames st) h = Some f ->
  nth_error (frames (run st trace)) h =
  Some {| var_output := var_output f ++ stdout_chunks h trace;
          var_errorOutput := var_errorOutput f ++ stderr_chunks h trace |}.
Proof.
  revert st f. induction trace as [|ev trace IH]; intros st f N.
  - simpl. rewrite !string_app_nil_r. now destruct f.
  - simpl run. rewrite (IH _ _ (frame_step st ev h f N)). cbn [var_output var_errorOutput].
    rewrite !string_app_assoc. do 2 f_equal.
    + destruct ev; cbn [stdout_chunks]; try reflexivity.
      destruct (Nat.eqb h0 h); cbn; now rewrite ?string_app_nil_r.
    + destruct ev; cbn [stderr_chunks]; try reflexivity.
      destruct (Nat.eqb h0 h); cbn; now rewrite ?string_app_nil_r.
Qed.

Lemma frame_accumulates_own_chunks_witness :
  nth_error
    (frames
       (run (run initial [Sample.install "0.i" 1000; Sample.install "0.j" 1500])
          [StdoutData 0 "added "; StdoutData 1 "up to date"; StderrData 0 "npm WARN";
           stop_process "i"; StdoutData 0 "1 package"]))
    0 =
  Some {| var_output := "added 1 package"; var_errorOutput := "npm WARN" |}.
Proof.
  apply (frame_accumulates_own_chunks
           [StdoutData 0 "added "; StdoutData 1 "up to date"; StderrData 0 "npm WARN";
            stop_process "i"; StdoutData 0 "1 package"]
           (run initial [Sample.install "0.i" 1000; Sample.install "0.j" 1500])
           0 {| var_output := EmptyString; var_errorOutput := EmptyString |}).
  reflexivity.
Defined.

Lemma cleanup_length entries cs : length (cleanup entries cs) = length cs.
Proof. symmetry. apply (Forall2_length (cleanup_quiet entries cs)). Qed.

Lemma aligned_step st ev : aligned st -> aligned (step st ev).
Proof.
  unfold aligned. intros A. destruct ev.
  1-5, 7-11:
    unfold_handler; repeat break_match; cbn [frames children];
    rewrite ?length_app, ?update_length, ?cleanup_length; simpl; lia.
  unfold step, react, tool, handleListProcesses, try_catch, bind, get_state, ret.
  cbn [fst snd].
  pose proof (list_loop_state now (JsMap.entries (runningProcesses st)) [] st) as E.
  destruct (list_loop _ _ _ _) as [st' [e|l]]; cbn [fst snd] in *; now subst.
Qed.

Lemma reachable_aligned trace : aligned (run initial trace).
Proof. apply run_invariant; [apply aligned_step | reflexivity]. Qed.

(** X2.  The frame created by a launch starts empty and belongs to the
    child of the record the launch stored: after any further events, the
    variables of that frame hold exactly what this child wrote to stdout
    and to stderr since the launch. *)
Theorem launched_frame_holds_the_output trace ev rest pid :
  launched_id (answer (run initial trace) ev) = Some pid ->
  exists info,
    JsMap.get pid (runningProcesses (step (run initial trace) ev)) = Some info /\
    nth_error (frames (run (step (run initial trace) ev) rest)) (process info) =
    Some {| var_output := stdout_chunks (process info) rest;
            var_errorOutput := stderr_chunks (process info) rest |}.
Proof.
  intros L. set (st := run initial trace) in *.
  destruct (step_cases st ev) as [(_ & _ & Q) | (rnd & now & c & a & d & S & L')];
    [congruence|].
  rewrite L' in L. injection L as <-. rewrite S, launch_unfold.
  cbn [runningProcesses]. rewrite get_set_same. eexists. split; [reflexivity|].
  cbn [process].
  apply (frame_run rest _ _ {| var_output := EmptyString; var_errorOutput := EmptyString |}).
  cbn [frames]. pose proof (reachable_aligned trace) as A. unfold aligned in A.
  fold st in A. rewrite <- A.
  rewrite nth_error_app2, Nat.sub_diag; auto.
Qed.

Lemma launched_frame_holds_the_output_witness :
  exists info,
    JsMap.get "j"
      (runningProcesses
         (step (run initial [Sample.install "0.i" 1000]) (Sample.run_app "0.j" 2000))) =
      Some info /\
    nth_error
      (frames
         (run (step (run initial [Sample.install "0.i" 1000]) (Sample.run_app "0.j" 2000))
            [StdoutData 1 "Compiled "; StdoutData 0 "done"; StdoutData 1 "successfully!"]))
      (process info) =
    Some {| var_output :=
              stdout_chunks (process info)
                [StdoutData 1 "Compiled "; StdoutData 0 "done"; StdoutData 1 "successfully!"];
            var_errorOutput :=
              stderr_chunks (process info)
                [StdoutData 1 "Compiled "; StdoutData 0 "done"; StdoutData 1 "successfully!"] |}.
Proof.
  apply (launched_frame_holds_the_output
           [Sample.install "0.i" 1000] (Sample.run_app "0.j" 2000)
           [StdoutData 1 "Compiled "; StdoutData 0 "done"; StdoutData 1 "successfully!"] "j").
  reflexivity.
Defined.

(** ** Exit, kill and what the status shows *)

(** X3.  When the exit callback of the child of a registered record runs
    with an exit status and no signal, every later
    [get-process-output] of that record reports [isRunning = false] and
    that status as [exitCode]. *)
Theorem normal_exit_is_reported st pid info c code rest now :
  Js.falsy pid = false ->
  JsMap.get pid (runningProcesses st) = Some info ->
  nth_error (children st) (process info) = Some c ->
  handle_open c = true ->
  JsMap.get pid
    (runningProcesses (run st (Exit (process info) code EmptyString :: rest))) = Some info ->
  exists c',
    answer (run st (Exit (process info) code EmptyString :: rest))
      (get_process_output pid now) = inr (Some (status_of now pid info c')) /\
    isRunning c' = false /\ exitCode c' = Some code.
Proof.
  intros F G N O G'.
  set (st1 := step st (Exit (process info) code EmptyString)).
  change (run st (Exit (process info) code EmptyString :: rest)) with (run st1 rest) in *.
  assert (N1 : nth_error (children st1) (process info) =
               Some (onexit code EmptyString c)).
  { unfold st1, step, react, callback. cbn [fst children].
    now rewrite nth_error_update, Nat.eqb_refl, N. }
  assert (C : handle_open (onexit code EmptyString c) = false /\
              exitCode (onexit code EmptyString c) = Some code).
  { unfold onexit. rewrite O. cbn. auto. }
  destruct C as (C1 & C2).
  exists (onexit code EmptyString c). split; [|split]; auto.
  - apply status_known; auto. now apply closed_child_run.
  - unfold isRunning. now rewrite C2.
Qed.

Lemma normal_exit_is_reported_witness :
  exists c',
    answer
      (run (run initial [Sample.install "0.4fzyo82mvyr" 1000])
         (Exit 0 1 EmptyString :: [stop_process "4fzyo82mvyr"]))
      (get_process_output "4fzyo82mvyr" 9000) =
    inr (Some (status_of 9000 "4fzyo82mvyr" (Sample.left_pad "0.4fzyo82mvyr" 1000) c')) /\
    isRunning c' = false /\ exitCode c' = Some 1%Z.
Proof.
  apply (normal_exit_is_reported
           (run initial [Sample.install "0.4fzyo82mvyr" 1000])
           "4fzyo82mvyr" (Sample.left_pad "0.4fzyo82mvyr" 1000)
           (spawn "npm install left-pad" [] "/srv/app") 1 [stop_process "4fzyo82mvyr"]);
    reflexivity.
Defined.

Lemma Forall2_nth_error_both {A} (R : A -> A -> Prop) l l' h :
  Forall2 R l l' ->
  match nth_error l h, nth_error l' h with
  | Some c, Some c' => R c c'
  | None, None => True
  | _, _ => False
  end.
Proof.
  intros F. revert h. induction F; intros [|h]; simpl; auto.
  apply IHF.
Qed.

Lemma exitCode_kill c : exitCode (kill c) = exitCode c.
Proof. unfold kill. now destruct (handle_open c). Qed.

Lemma status_same_exit_codes st st' p now :
  runningProcesses st' = runningProcesses st ->
  Forall2 (fun c c' => exitCode c' = exitCode c) (children st) (children st') ->
  answer st' (GetProcessOutput now p) = answer st (GetProcessOutput now p).
Proof.
  intros R F. unfold_handler.
  destruct (Js.falsy _); cbn [fst snd]; auto. rewrite R.
  destruct (JsMap.has _ _); cbn [negb fst snd]; auto.
  destruct (JsMap.get _ _) as [info|]; cbn [fst snd]; auto.
  pose proof (Forall2_nth_error_both _ _ _ (process info) F) as B.
  destruct (nth_error (children st) (process info)) as [c|],
           (nth_error (children st') (process info)) as [c'|];
    try contradiction; cbn [fst snd]; auto.
  now rewrite B.
Qed.

Lemma list_loop_same_exit_codes now st st' entries acc :
  Forall2 (fun c c' => exitCode c' = exitCode c) (children st) (children st') ->
  snd (list_loop now entries acc st') = snd (list_loop now entries acc st).
Proof.
  intros F. revert acc. induction entries as [|[k info] entries IH]; intros acc; simpl; auto.
  unfold bind, get_state, deref.
  pose proof (Forall2_nth_error_both _ _ _ (process info) F) as B.
  destruct (nth_error (children st) (process info)) as [c|],
           (nth_error (children st') (process info)) as [c'|];
    try contradiction; cbn [fst snd ret throw]; auto.
  rewrite B. apply IH.
Qed.

Lemma list_same_exit_codes st st' now :
  runningProcesses st' = runningProcesses st ->
  Forall2 (fun c c' => exitCode c' = exitCode c) (children st) (children st') ->
  answer st' (ListProcesses now) = answer st (ListProcesses now).
Proof.
  intros R F.
  unfold answer, react, tool, handleListProcesses, try_catch, bind, get_state, ret.
  cbn [fst snd]. rewrite R.
  pose proof (list_loop_same_exit_codes now st st'
                (JsMap.entries (runningProcesses st)) [] F) as E.
  destruct (list_loop now _ [] st') as [s1 [e1|l1]],
           (list_loop now _ [] st) as [s2 [e2|l2]];
    cbn [fst snd] in *; congruence.
Qed.

Lemma killing_step st ev :
  (exists pid, ev = stop_process pid) \/ ev = Shutdown ->
  runningProcesses (step st ev) = runningProcesses st /\
  Forall2 (fun c c' => c' = c \/ c' = kill c) (children st) (children (step st ev)).
Proof.
  intros [(pid & ->) | ->].
  - unfold stop_process. unfold_handler. cbn [StopProcessSchema.processId].
    repeat break_match; cbn [runningProcesses children]; split; auto;
      solve [ apply Forall2_refl; auto | apply Forall2_update; auto ].
  - unfold step, react, callback. cbn [fst runningProcesses children].
    split; auto. apply cleanup_kills.
Qed.

(** X4.  Sending the signal is not a change of status: after
    [stop-process] on any identifier, and after the kills of the
    shutdown listener, [get-process-output] and [list-processes] answer
    exactly what they answered before. *)
Theorem kill_changes_no_answer st ev q now :
  (exists pid, ev = stop_process pid) \/ ev = Shutdown ->
  answer (step st ev) (get_process_output q now) = answer st (get_process_output q now) /\
  answer (step st ev) (ListProcesses now) = answer st (ListProcesses now).
Proof.
  intros K. destruct (killing_step st ev K) as (R & F).
  assert (F' : Forall2 (fun c c' => exitCode c' = exitCode c)
                 (children st) (children (step st ev))).
  { eapply Forall2_impl; [|exact F]. intros c c' [->| ->]; auto using exitCode_kill. }
  split; [now apply status_same_exit_codes | now apply list_same_exit_codes].
Qed.

Lemma kill_changes_no_answer_witness :
  answer (step (run initial [Sample.install "0.i" 1000]) (stop_process "i"))
    (get_process_output "i" 2000) =
  answer (run initial [Sample.install "0.i" 1000]) (get_process_output "i" 2000) /\
  answer (step (run initial [Sample.install "0.i" 1000]) (stop_process "i"))
    (ListProcesses 2000) =
  answer (run initial [Sample.install "0.i" 1000]) (ListProcesses 2000).
Proof.
  apply (kill_changes_no_answer (run initial [Sample.install "0.i" 1000])
           (stop_process "i") "i" 2000).
  left. exists "i". reflexivity.
Defined.

(** ** What a tool call changes *)

Lemma list_step st now : step st (ListProcesses now) = st.
Proof.
  unfold step, react, tool, handleListProcesses, try_catch, bind, get_state, ret.
  cbn [fst snd].
  pose proof (list_loop_state now (JsMap.entries (runningProcesses st)) [] st) as E.
  destruct (list_loop _ _ _ _) as [st' [e|l]]; cbn [fst snd] in *; now subst.
Qed.

(** X5.  [get-process-output], [list-processes] and [run-command] only
    read: whatever their arguments and whatever they answer, the registry,
    the children and the frames are as before the call. *)
Theorem reading_tools_change_nothing st :
  (forall now params, step st (GetProcessOutput now params) = st) /\
  (forall now, step st (ListProcesses now) = st) /\
  (forall host o params, step st (RunCommand host o params) = st).
Proof.
  split; [|split].
  - intros. unfold_handler. repeat break_match; reflexivity.
  - apply list_step.
  - intros. unfold_handler. repeat break_match; reflexivity.
Qed.

(** X6.  A tool call that is answered with an [error] has changed
    nothing: every handler throws before its first write, or after none. *)
Theorem failed_call_changes_nothing st ev r :
  answer st ev = inr (Some r) ->
  error_field r <> None ->
  step st ev = st.
Proof.
  destruct ev.
  1-5, 7-11:
    unfold_handler; repeat break_match; intros [= <-] E;
    solve [ reflexivity | now elim E ].
  intros _ _. apply list_step.
Qed.

Lemma failed_call_changes_nothing_witness :
  step (run initial [Sample.install "0.i" 1000])
    (CreateReactApp Sample.host "0.j" 2000
       {| CreateReactAppSchema.name := "app";
          CreateReactAppSchema.template := None;
          CreateReactAppSchema.directory := Some "/srv" |}) =
  run initial [Sample.install "0.i" 1000].
Proof.
  apply (failed_call_changes_nothing
           (run initial [Sample.install "0.i" 1000])
           (CreateReactApp Sample.host "0.j" 2000
              {| CreateReactAppSchema.name := "app";
                 CreateReactAppSchema.template := None;
                 CreateReactAppSchema.directory := Some "/srv" |})
           (Failed "Error creating React app: Directory /srv/app already exists")).
  - reflexivity.
  - discriminate.
Defined.

(** X7.  A launch returns before its process has done anything: the
    status asked right after a launch, under the identifier it returned,
    shows [isRunning = true], no exit code and empty outputs. *)
Theorem launched_process_starts_running st ev pid now :
  launched_id (answer st ev) = Some pid ->
  Js.falsy pid = false ->
  exists commandLine directory start elapsed,
    answer (step st ev) (get_process_output pid now) =
    inr (Some (Status pid commandLine directory true None
                 EmptyString EmptyString start elapsed)).
Proof.
  intros L F.
  destruct (step_cases st ev) as [(_ & _ & Q) | (rnd & t & c & a & d & S & L')];
    [congruence|].
  rewrite L' in L. injection L as <-. rewrite S, launch_unfold.
  do 4 eexists.
  rewrite (status_known _ now _
             {| process := length (children st); command := c; args := a;
                cwd := d; output := EmptyString; errorOutput := EmptyString;
                startTime := t; processId := Js.substring 2 15 rnd |}
             (spawn c a d) F).
  - reflexivity.
  - cbn [runningProcesses]. apply get_set_same.
  - cbn [children process]. now rewrite nth_error_app2, Nat.sub_diag.
Qed.

Lemma launched_process_starts_running_witness :
  exists commandLine directory start elapsed,
    answer (step initial (Sample.run_app "0.4fzyo82mvyr" 1000))
      (get_process_output "4fzyo82mvyr" 1000) =
    inr (Some (Status "4fzyo82mvyr" commandLine directory true None
                 EmptyString EmptyString start elapsed)).
Proof.
  apply (launched_process_starts_running initial (Sample.run_app "0.4fzyo82mvyr" 1000));
    reflexivity.
Defined.

(** X8.  No event touches the record of another identifier: the record
    stored under [q] is the same after any event that did not hand out
    [q] itself. *)
Theorem other_records_are_kept st ev q :
  launched_id (answer st ev) <> Some q ->
  JsMap.get q (runningProcesses (step st ev)) = JsMap.get q (runningProcesses st).
Proof.
  intros L.
  destruct (step_cases st ev) as [(R & _ & _) | (rnd & t & c & a & d & S & L')].
  - now rewrite R.
  - rewrite S, launch_unfold. cbn [runningProcesses].
    apply get_set_other. congruence.
Qed.

Lemma other_records_are_kept_witness :
  JsMap.get "i"
    (runningProcesses
       (step (run initial [Sample.install "0.i" 1000]) (Sample.run_app "0.j" 2000))) =
  JsMap.get "i" (runningProcesses (run initial [Sample.install "0.i" 1000])).
Proof.
  apply (other_records_are_kept (run initial [Sample.install "0.i" 1000])
           (Sample.run_app "0.j" 2000) "i").
  discriminate.
Defined.

(** ** Records and their children *)

Lemma child_step_spawn c c' :
  child_step c c' ->
  spawn_command c' = spawn_command c /\ spawn_args c' = spawn_args c /\ spawn_cwd c' = spawn_cwd c.
Proof.
  intros [| |code signal]; auto; unfold kill, onexit;
    destruct (handle_open c); auto; destruct (Js.falsy signal); auto.
Qed.

Lemma owns_step st ev : owns st -> owns (step st ev).
Proof.
  intros K. destruct (step_cases st ev) as [(R & C & _) | (rnd & now & c & a & d & S & _)].
  - unfold owns. rewrite R. intros k info I.
    destruct (K k info I) as (ch & N & E1 & E2 & E3).
    destruct (Forall2_nth_error _ _ _ _ _ C N) as (ch' & N' & CS).
    destruct (child_step_spawn _ _ CS) as (F1 & F2 & F3).
    exists ch'. repeat split; congruence.
  - rewrite S, launch_unfold. intros k info H. cbn [runningProcesses children] in *.
    apply In_set in H. destruct H as [[= -> ->] | H].
    + cbn [process command args cwd]. exists (spawn c a d).
      rewrite nth_error_app2, Nat.sub_diag; auto.
    + destruct (K k info H) as (ch & N & E). exists ch. split; auto.
      rewrite nth_error_app1; auto. apply nth_error_Some. congruence.
Qed.

Lemma exclusive_step st ev : bound st -> exclusive st -> exclusive (step st ev).
Proof.
  intros B K.
  destruct (step_cases st ev) as [(R & _ & _) | (rnd & now & c & a & d & S & _)].
  - unfold exclusive. now rewrite R.
  - rewrite S, launch_unfold. intros k1 i1 k2 i2 H1 H2. cbn [runningProcesses] in *.
    apply In_set in H1. apply In_set in H2.
    destruct H1 as [[= -> ->] | H1], H2 as [[= -> ->] | H2]; cbn [process]; auto.
    + intros E. apply B in H2. lia.
    + intros E. apply B in H1. lia.
    + now apply K.
Qed.

Lemma reachable_owns trace : owns (run initial trace).
Proof. apply run_invariant; [apply owns_step | intros k info []]. Qed.

Lemma reachable_exclusive trace : exclusive (run initial trace).
Proof.
  assert (H : bound (run initial trace) /\ exclusive (run initial trace)).
  { apply (run_invariant (fun st => bound st /\ exclusive st)).
    - intros st ev (B & E). split; [now apply bound_step | now apply exclusive_step].
    - split; [intros ? ? [] | intros ? ? ? ? []]. }
  apply H.
Qed.

(** X9.  In every state the server can reach, the record found under an
    identifier refers to a child object that exists, and that object is
    the one returned by the call of [spawn] whose [command], [args] and
    [cwd] are those the record shows. *)
Theorem record_describes_its_child trace pid info :
  JsMap.get pid (runningProcesses (run initial trace)) = Some info ->
  exists c,
    nth_error (children (run initial trace)) (process info) = Some c /\
    spawn_command c = command info /\ spawn_args c = args info /\ spawn_cwd c = cwd info.
Proof. intros G. apply (reachable_owns trace pid). now apply get_In. Qed.

Lemma record_describes_its_child_witness :
  exists c,
    nth_error
      (children (run initial [Sample.install "0.i" 1000; stop_process "i";
                              Exit 0 0 "SIGTERM"]))
      (process (Sample.left_pad "0.i" 1000)) = Some c /\
    spawn_command c = command (Sample.left_pad "0.i" 1000) /\
    spawn_args c = args (Sample.left_pad "0.i" 1000) /\
    spawn_cwd c = cwd (Sample.left_pad "0.i" 1000).
Proof.
  apply (record_describes_its_child
           [Sample.install "0.i" 1000; stop_process "i"; Exit 0 0 "SIGTERM"] "i").
  reflexivity.
Defined.

(** X10.  In every state the server can reach, two identifiers never
    share a child object: records found under different identifiers refer
    to different children. *)
Theorem records_own_distinct_children trace p1 p2 info1 info2 :
  JsMap.get p1 (runningProcesses (run initial trace)) = Some info1 ->
  JsMap.get p2 (runningProcesses (run initial trace)) = Some info2 ->
  p1 <> p2 ->
  process info1 <> process info2.
Proof.
  intros G1 G2 N E. apply N.
  apply (reachable_exclusive trace p1 info1 p2 info2); auto using get_In.
Qed.

Lemma records_own_distinct_children_witness :
  process (Sample.left_pad "0.i" 1000) <>
  process {| process := 1; command := "npm"; args := ["start"]; cwd := "/srv/app";
             output := EmptyString; errorOutput := EmptyString;
             startTime := 2000; processId := "j" |}.
Proof.
  apply (records_own_distinct_children
           [Sample.install "0.i" 1000; Sample.run_app "0.j" 2000] "i" "j");
    [reflexivity | reflexivity | discriminate].
Defined.

(** ** Identifiers *)

Lemma substring_length n m s : String.length (String.substring n m s) <= m.
Proof.
  revert n m. induction s as [|ch s IH]; intros [|n] [|m]; simpl; try lia.
  - specialize (IH 0 m). lia.
  - apply (IH n 0).
  - apply (IH n (S m)).
Qed.

(** X11.  Every identifier a launch hands out has at most thirteen
    characters. *)
Theorem identifiers_are_short st ev pid :
  launched_id (answer st ev) = Some pid ->
  String.length pid <= 13.
Proof.
  intros L.
  destruct (step_cases st ev) as [(_ & _ & Q) | (rnd & now & c & a & d & _ & L')];
    [congruence|].
  rewrite L' in L. injection L as <-. apply substring_length.
Qed.

Lemma identifiers_are_short_witness :
  String.length "4fzyo82mvyrab" <= 13.
Proof.
  apply (identifiers_are_short initial (Sample.install "0.4fzyo82mvyrabcdefgh" 1000)).
  reflexivity.
Defined.

(** ** The shutdown listener *)

Lemma cleanup_nth entries cs h :
  nth_error (cleanup entries cs) h =
  option_map
    (fun c => if existsb (fun e => Nat.eqb (process (snd e)) h) entries then kill c else c)
    (nth_error cs h).
Proof.
  revert cs. induction entries as [|[k info] entries IH]; intros cs; simpl.
  - now destruct (nth_error cs h).
  - rewrite IH, nth_error_update. rewrite (Nat.eqb_sym h).
    destruct (Nat.eqb (process info) h); simpl.
    + destruct (nth_error cs h); simpl; auto.
      destruct (existsb _ entries); now rewrite ?kill_twice.
    + reflexivity.
Qed.

(** X12.  When the server exits, the listener calls [kill] on the child
    of every record of the registry and on no other child object, and
    leaves the registry as it is: a registered child whose handle was open
    is marked [killed], a child no record refers to is untouched. *)
Theorem shutdown_kills_registered_children st h c :
  nth_error (children st) h = Some c ->
  runningProcesses (step st Shutdown) = runningProcesses st /\
  ((exists k info, In (k, info) (JsMap.entries (runningProcesses st)) /\ process info = h) ->
   nth_error (children (step st Shutdown)) h = Some (kill c) /\
   (handle_open c = true -> killed (kill c) = true)) /\
  ((forall k info, In (k, info) (JsMap.entries (runningProcesses st)) -> process info <> h) ->
   nth_error (children (step st Shutdown)) h = Some c).
Proof.
  intros N. unfold step, react, callback. cbn [fst runningProcesses children].
  rewrite cleanup_nth, N. cbn [option_map]. split; [reflexivity|]. split.
  - intros (k & info & I & E).
    assert (X : existsb (fun e => Nat.eqb (process (snd e)) h)
                  (JsMap.entries (runningProcesses st)) = true).
    { apply existsb_exists. exists (k, info). split; auto. now apply Nat.eqb_eq. }
    rewrite X. split; auto. intros O. unfold kill. now rewrite O.
  - intros NI.
    destruct (existsb _ _) eqn:X; auto.
    apply existsb_exists in X. destruct X as ([k info] & I & E).
    apply Nat.eqb_eq in E. now elim (NI k info I).
Qed.

Lemma shutdown_kills_registered_children_witness :
  runningProcesses
    (step (run initial [Sample.install "0.i" 1000; Sample.run_app "0.i" 2000]) Shutdown) =
  runningProcesses (run initial [Sample.install "0.i" 1000; Sample.run_app "0.i" 2000]) /\
  map killed
    (children
       (step (run initial [Sample.install "0.i" 1000; Sample.run_app "0.i" 2000]) Shutdown)) =
  [false; true].
Proof.
  destruct (shutdown_kills_registered_children
              (run initial [Sample.install "0.i" 1000; Sample.run_app "0.i" 2000])
              1 (spawn "npm" ["start"] "/srv/app") eq_refl) as (R & _ & _).
  split; [exact R | reflexivity].
Defined.

(** ** [list-processes] against [get-process-output] *)

Lemma list_loop_snapshots now st entries acc :
  (forall k info, In (k, info) entries -> process info < length (children st)) ->
  exists snaps,
    list_loop now entries acc st = (st, inr (acc ++ snaps)%list) /\
    Forall2
      (fun e snap =>
         exists c, nth_error (children st) (process (snd e)) = Some c /\
                   snap = snapshot_of now (fst e) (snd e) c)
      entries snaps.
Proof.
  revert acc. induction entries as [|[k info] entries IH]; intros acc B; simpl.
  - exists []. rewrite app_nil_r. split; [reflexivity | constructor].
  - unfold bind, get_state, deref.
    destruct (nth_error (children st) (process info)) as [c|] eqn:N.
    + unfold ret at 1. cbn [fst snd].
      destruct (IH (acc ++ [snapshot_of now k info c])%list) as (snaps & E & F).
      { intros k' info' H. apply (B k'). now right. }
      exists (snapshot_of now k info c :: snaps). split.
      * unfold snapshot_of, isRunning in *. rewrite E. now rewrite <- app_assoc.
      * constructor; auto. exists c. auto.
    + exfalso. apply nth_error_None in N.
      specialize (B k info (or_introl eq_refl)). lia.
Qed.

(** X13.  [list-processes] and [get-process-output] never disagree: in
    every state the server can reach, each snapshot of the list shows,
    for its identifier, the command line, directory, running flag, exit
    code and times that [get-process-output] answers at the same
    instant. *)
Theorem listed_snapshot_agrees_with_status trace now snaps n snap :
  answer (run initial trace) (ListProcesses now) = inr (Some (Listed snaps n)) ->
  In snap snaps ->
  Js.falsy (snap_processId snap) = false ->
  exists out err,
    answer (run initial trace) (get_process_output (snap_processId snap) now) =
    inr (Some (Status (snap_processId snap) (snap_command snap) (snap_directory snap)
                 (snap_isRunning snap) (snap_exitCode snap) out err
                 (snap_startTime snap) (snap_runTime snap))).
Proof.
  intros A I F. set (st := run initial trace) in *.
  destruct (list_loop_snapshots now st (JsMap.entries (runningProcesses st)) []
              (reachable_bound trace)) as (snaps0 & E & F2).
  assert (snaps = snaps0).
  { revert A. unfold answer, react, tool, handleListProcesses, try_catch, bind,
      get_state, ret. cbn [fst snd]. rewrite E. cbn [fst snd]. now intros [= -> _]. }
  subst snaps0.
  assert (X : exists e, In e (JsMap.entries (runningProcesses st)) /\
                        exists c, nth_error (children st) (process (snd e)) = Some c /\
                                  snap = snapshot_of now (fst e) (snd e) c).
  { clear -I F2. induction F2 as [|e s es ss R F2 IH]; [contradiction|].
    destruct I as [->|I].
    - exists e. split; [now left | exact R].
    - destruct (IH I) as (e' & I' & R'). exists e'. split; [now right | exact R']. }
  destruct X as ([k info] & I' & c & N & ->). cbn [fst snd] in *.
  exists (output info), (errorOutput info). cbn [snapshot_of snap_processId] in *.
  rewrite (status_known st now k info c F); auto.
  apply In_get; auto. apply (reachable_distinct trace).
Qed.

Lemma listed_snapshot_agrees_with_status_witness :
  exists out err,
    answer (run initial [Sample.install "0.i" 1000; Exit 0 3 EmptyString])
      (get_process_output "i" 4000) =
    inr (Some (Status "i" "npm install left-pad " "/srv/app" false (Some 3%Z) out err
                 1000 "3 seconds")).
Proof.
  apply (listed_snapshot_agrees_with_status
           [Sample.install "0.i" 1000; Exit 0 3 EmptyString] 4000
           [{| snap_processId := "i"; snap_command := "npm install left-pad ";
               snap_directory := "/srv/app"; snap_isRunning := false;
               snap_exitCode := Some 3%Z; snap_startTime := 1000;
               snap_runTime := "3 seconds" |}] 1
           {| snap_processId := "i"; snap_command := "npm install left-pad ";
              snap_directory := "/srv/app"; snap_isRunning := false;
              snap_exitCode := Some 3%Z; snap_startTime := 1000;
              snap_runTime := "3 seconds" |}).
  - reflexivity.
  - left. reflexivity.
  - reflexivity.
Defined.

(** ** When the presets launch *)

(** X14.  [create-react-app] refuses an empty name and a project
    directory (base directory joined with the name) that exists: it
    answers with an error and changes nothing.  Whenever it does hand out
    an identifier, the record stored under it shows the command
    [npx create-react-app] with the name, [--template] only for a
    non-empty template, no arguments, and as directory the base
    directory, which is the home directory when none is given. *)
Theorem create_react_app_launches_only_fresh host rnd now name template directory st :
  if Js.falsy name ||
     existsSync host (path_join host (Js.or_else directory (homedir host)) name)
  then
    exists e,
      react (CreateReactApp host rnd now
               {| CreateReactAppSchema.name := name;
                  CreateReactAppSchema.template := template;
                  CreateReactAppSchema.directory := directory |}) st =
      (st, inr (Some (Failed e)))
  else
    forall pid,
      launched_id
        (answer st
           (CreateReactApp host rnd now
              {| CreateReactAppSchema.name := name;
                 CreateReactAppSchema.template := template;
                 CreateReactAppSchema.directory := directory |})) = Some pid ->
      exists info,
        JsMap.get pid
          (runningProcesses
             (step st
                (CreateReactApp host rnd now
                   {| CreateReactAppSchema.name := name;
                      CreateReactAppSchema.template := template;
                      CreateReactAppSchema.directory := directory |}))) = Some info /\
        command info =
          match template with
          | Some (String ch t) =>
              "npx create-react-app " ++ name ++ " --template " ++ String ch t
          | _ => "npx create-react-app " ++ name
          end /\
        args info = [] /\
        cwd info = Js.or_else directory (homedir host) /\
        answer st
          (CreateReactApp host rnd now
             {| CreateReactAppSchema.name := name;
                CreateReactAppSchema.template := template;
                CreateReactAppSchema.directory := directory |}) =
        inr (Some (Created
                     ("Creating React app " ++ Js.quoted name ++ " in " ++
                      path_join host (Js.or_else directory (homedir host)) name)
                     pid
                     (path_join host (Js.or_else directory (homedir host)) name))).
Proof.
  unfold_handler. cbn [CreateReactAppSchema.name CreateReactAppSchema.template
                       CreateReactAppSchema.directory].
  destruct (Js.falsy name); cbn [orb fst snd]; [eexists; reflexivity|].
  destruct (existsSync host _); cbn [fst snd]; [eexists; reflexivity|].
  intros pid [= <-]. cbn [runningProcesses]. rewrite get_set_same.
  eexists. split; [reflexivity|]. cbn [command args cwd].
  repeat split. now destruct template as [[|ch t]|].
Qed.

Lemma check_react_accepts j st :
  check_react j st = (st, inr tt) /\ Js.truthy (react_entry j) = true \/
  (exists e, check_react j st = (st, inl e)) /\ Js.truthy (react_entry j) = false.
Proof.
  unfold react_entry, check_react, bind, deref_null, throw_if, throw, ret.
  destruct j as [| | | | |fields]; cbn; try (right; split; [eexists|]; reflexivity).
  destruct (Js.field "dependencies" fields) as [[| | | | |deps]|]; cbn;
    try (right; split; [eexists|]; reflexivity).
  - destruct b; right; split; try eexists; reflexivity.
  - destruct (Z.eqb n 0); right; split; try eexists; reflexivity.
  - destruct (Js.falsy s); right; split; try eexists; reflexivity.
  - destruct (Js.truthy (Js.field "react" deps)); [left | right]; split;
      try eexists; reflexivity.
Qed.

(** X15.  [run-react-app] launches [npm start] in the project directory
    exactly when the path is not empty, the directory and its
    [package.json] exist, the file parses, and its [dependencies] is an
    object whose [react] entry is truthy; an entry that is present but
    empty, zero, false or null is refused like a missing one.  In every
    other case it answers with an error and changes nothing. *)
Theorem run_react_app_launches_iff host rnd now projectPath st :
  if negb (Js.falsy projectPath) && existsSync host projectPath &&
     existsSync host (path_join host projectPath "package.json") &&
     match readJSON host (path_join host projectPath "package.json") with
     | inr j => Js.truthy (react_entry j)
     | inl _ => false
     end
  then
    react (RunReactApp host rnd now {| RunReactAppSchema.projectPath := projectPath |}) st =
    (launch rnd now "npm" ["start"] projectPath st,
     inr (Some (Started ("Starting React development server in " ++ projectPath)
                  (Js.substring 2 15 rnd)
                  "The development server should be accessible at http://localhost:3000")))
  else
    exists e,
      react (RunReactApp host rnd now {| RunReactAppSchema.projectPath := projectPath |}) st =
      (st, inr (Some (Failed e))).
Proof.
  unfold react, tool, handleRunReactApp, try_catch, bind, throw_if, lift, ret, throw.
  cbn [RunReactAppSchema.projectPath].
  destruct (Js.falsy projectPath); cbn [negb andb fst snd]; [eexists; reflexivity|].
  destruct (existsSync host projectPath); cbn [negb andb fst snd]; [|eexists; reflexivity].
  destruct (existsSync host (path_join host projectPath "package.json"));
    cbn [negb andb fst snd]; [|eexists; reflexivity].
  destruct (readJSON host _) as [e|j]; cbn [fst snd]; [eexists; reflexivity|].
  destruct (check_react_accepts j st) as [(-> & ->) | ((e & ->) & ->)]; cbn [fst snd];
    [reflexivity | eexists; reflexivity].
Qed.

(** An entry [react] with an empty version does not make a React
    project. *)
Example run_app_rejects_empty_react_version :
  react (RunReactApp
           {| existsSync := fun _ => true;
              readJSON := fun _ =>
                inr (Js.JObj [("dependencies", Js.JObj [("react", Js.JStr EmptyString)])]);
              homedir := "/home/dev"; process_cwd := "/srv";
              path_join := fun a b => a ++ "/" ++ b |}
           "0.i" 1000 {| RunReactAppSchema.projectPath := "/srv/app" |}) initial =
  (initial,
   inr (Some (Failed ("Error running React app: " ++
                      "Not a valid React app: react dependency not found in package.json")))).
Proof. reflexivity. Qed.


(** ** What [run-command] tells about a failure *)

(** X17.  When the command did run and failed (a status other than 0, or
    death by a signal), the [error] of the answer is one fixed text: it
    carries neither the exit status, nor the signal, nor the message of
    [exec]; only [stderr] tells the failures apart. *)
Theorem failed_command_error_is_fixed host o command directory st :
  Js.falsy command = false ->
  existsSync host (Js.or_else directory (process_cwd host)) = true ->
  exit_status o <> 0%Z \/ exit_signal o <> None ->
  handleRunCommand host o
    {| RunCommandSchema.command := command; RunCommandSchema.directory := directory |} st =
  (st, inr (FailedCommand "Error executing command: undefined" (exec_stderr o))).
Proof.
  intros F E X. unfold_handler.
  cbn [RunCommandSchema.command RunCommandSchema.directory].
  rewrite F. cbn [fst snd]. rewrite E. cbn [negb fst snd].
  assert (S : stderr_of (Rejected {| ee_code := None; ee_signal := None;
                                     ee_message := EmptyString |} (exec_stderr o)) =
              exec_stderr o).
  { unfold stderr_of, Js.or_else. now destruct (exec_stderr o). }
  unfold exec_error. destruct (exit_signal o) as [s|]; cbn [fst snd message_of].
  - unfold stderr_of in *. now rewrite S.
  - destruct (Z.eqb_spec (exit_status o) 0) as [Z0|_].
    + destruct X as [X|X]; [contradiction | now elim X].
    + cbn [fst snd message_of]. unfold stderr_of in *. now rewrite S.
Qed.

Lemma failed_command_error_is_fixed_witness :
  handleRunCommand Sample.host
    {| exit_status := 0; exit_signal := Some "SIGKILL";
       exec_stdout := "building"; exec_stderr := EmptyString |}
    {| RunCommandSchema.command := "npm run build";
       RunCommandSchema.directory := None |} initial =
  (initial, inr (FailedCommand "Error executing command: undefined" EmptyString)).
Proof.
  apply (failed_command_error_is_fixed Sample.host
           {| exit_status := 0; exit_signal := Some "SIGKILL";
              exec_stdout := "building"; exec_stderr := EmptyString |}
           "npm run build" None initial).
  - reflexivity.
  - reflexivity.
  - right. discriminate.
Defined.

(** ** The timestamp of the log *)

(** X18.  The timestamp [getCurrentTimestamp] makes of an ISO date has
    the length of that date, contains no colon and no dot, and differs
    from it only where the date has one of the two. *)
Theorem timestamp_has_no_colon_nor_dot iso :
  String.length (getCurrentTimestamp iso) = String.length iso /\
  (forall n, String.get n (getCurrentTimestamp iso) <> Some ":"%char /\
             String.get n (getCurrentTimestamp iso) <> Some "."%char) /\
  (forall n c, String.get n iso = Some c -> c <> ":"%char -> c <> "."%char ->
               String.get n (getCurrentTimestamp iso) = Some c).
Proof.
  unfold getCurrentTimestamp. induction iso as [|ch iso (L & N & K)]; simpl.
  - repeat split; intros; try discriminate.
  - split; [now rewrite L|]. split.
    + intros [|n]; [|apply N].
      destruct (Ascii.eqb_spec ch ":"); simpl; [split; discriminate|].
      destruct (Ascii.eqb_spec ch "."); simpl; [split; discriminate|].
      split; congruence.
    + intros [|n] c; [|apply K].
      intros [= ->] H1 H2.
      destruct (Ascii.eqb_spec c ":"); [contradiction|].
      destruct (Ascii.eqb_spec c "."); [contradiction|]. reflexivity.
Qed.

Example timestamp_of_a_date :
  getCurrentTimestamp "2024-05-06T07:08:09.123Z" = "2024-05-06T07-08-09-123Z".
Proof. reflexivity. Qed.

(** ** The file tools *)

(** X19.  On a file system where what is written reads back, a file
    written by [edit-file] is returned by [read-file]: after a successful
    [edit-file], [read-file] of the same path answers with the content
    that was given and with the size [edit-file] reported. *)
Theorem edit_then_read_gives_the_content {FS} (io : FileSystem FS)
    filePath content fs fs' message written size :
  reads_back_writes io ->
  handleEditFile io
    {| EditFileSchema.filePath := filePath; EditFileSchema.content := content |} fs =
    (fs', Edited message written size) ->
  written = filePath /\
  handleReadFile io {| ReadFileSchema.filePath := filePath |} fs' =
    ReadBack filePath content size.
Proof.
  intros Law. unfold handleEditFile, handleReadFile.
  cbn [EditFileSchema.filePath EditFileSchema.content ReadFileSchema.filePath].
  destruct (Js.falsy filePath); [discriminate|].
  destruct (if fs_existsSync io fs (dirname io filePath) then (fs, None)
            else fs_mkdirSync io fs (dirname io filePath)) as [fs1 [e|]]; [discriminate|].
  destruct (fs_writeFileSync io fs1 filePath content) as [fs2 [e|]] eqn:W; [discriminate|].
  intros [= <- _ <- <-]. destruct (Law _ _ _ _ W) as (E & R).
  now rewrite E, R.
Qed.

Lemma edit_then_read_gives_the_content_witness :
  "notes/todo.txt" = "notes/todo.txt" /\
  handleReadFile flat_files {| ReadFileSchema.filePath := "notes/todo.txt" |}
    [("notes/todo.txt", "buy milk"); ("notes/todo.txt", "old")] =
  ReadBack "notes/todo.txt" "buy milk" 8.
Proof.
  apply (edit_then_read_gives_the_content flat_files "notes/todo.txt" "buy milk"
           [("notes/todo.txt", "old")]
           [("notes/todo.txt", "buy milk"); ("notes/todo.txt", "old")]
           "File notes/todo.txt updated successfully").
  - intros fs p c fs' [= <-]. cbn. unfold JsMap.has. cbn.
    now rewrite String.eqb_refl.
  - reflexivity.
Defined.

(** X20.  The file tools refuse a bad path before they touch a file:
    with an empty path [edit-file] answers with an error and leaves the
    file system as it was, whatever the content, and [read-file] answers
    with an error; [read-file] of a path that does not exist answers with
    an error that names the path, and reads nothing. *)
Theorem file_tools_refuse_bad_paths {FS} (io : FileSystem FS) fs :
  (forall content,
     handleEditFile io
       {| EditFileSchema.filePath := EmptyString; EditFileSchema.content := content |} fs =
     (fs, FileFailed "Error editing file: File path is required")) /\
  handleReadFile io {| ReadFileSchema.filePath := EmptyString |} fs =
    FileFailed "Error reading file: File path is required" /\
  (forall filePath read,
     fs_existsSync io fs filePath = false ->
     handleReadFile
       {| fs_existsSync := fs_existsSync io; fs_mkdirSync := fs_mkdirSync io;
          fs_writeFileSync := fs_writeFileSync io; fs_readFileSync := read;
          dirname := dirname io; byteLength := byteLength io |}
       {| ReadFileSchema.filePath := filePath |} fs =
     handleReadFile io {| ReadFileSchema.filePath := filePath |} fs /\
     exists e,
       handleReadFile io {| ReadFileSchema.filePath := filePath |} fs = FileFailed e /\
       names e filePath).
Proof.
  split; [|split]; try reflexivity.
  intros filePath read E. unfold handleReadFile. cbn [ReadFileSchema.filePath fs_existsSync
    fs_readFileSync byteLength].
  destruct (Js.falsy filePath) eqn:F; [|rewrite E; cbn [negb]].
  - split; [reflexivity|]. eexists. split; [reflexivity|].
    apply falsy_iff in F. subst. eexists _, EmptyString. simpl.
    symmetry. apply string_app_nil_r.
  - split; [reflexivity|]. eexists. split; [reflexivity|].
    apply names_prefixed. apply (names_middle "File ").
Qed.

(** ** The request handlers *)

Lemma parsed_accepted {A} (call : A -> Call) (p : option A) :
  accepted (parsed call p) = match p with Some _ => true | None => false end.
Proof. now destruct p. Qed.

Lemma parsed_known {A} (call : A -> Call) (p : option A) name :
  parsed call p <> inl (UnknownTool name).
Proof. destruct p; discriminate. Qed.

Ltac field_cases :=
  repeat match goal with
         | |- context [Js.field ?k ?fields] =>
             let v := fresh "v" in
             destruct (Js.field k fields) as [v|]; [destruct v|]; cbn
         end.

(** X21.  The schemas that validate a call agree with the input schemas
    the server advertises.  For the arguments that reach the [switch]
    (the SDK lets through an object, or none): for every listed tool, an
    object passes the validation of the call-tool handler exactly when it
    follows the advertised schema (required keys present, listed
    properties of the listed type; other keys are ignored), and a call
    without arguments passes exactly for a tool whose schema requires no
    key. *)
Theorem validation_agrees_with_listing t (arguments : option (list (string * Js.json))) :
  In t listed_tools ->
  accepted (route (tool_name t) (option_map Js.JObj arguments)) =
  match arguments with
  | Some fields => follows t fields
  | None => match tool_required t with [] => true | _ :: _ => false end
  end.
Proof.
  intros H. simpl in H.
  repeat (destruct H as [<-|H]); try contradiction;
    destruct arguments as [fields|]; try reflexivity;
    unfold route, follows; cbn [option_map tool_name tool_required tool_properties
      String.eqb Ascii.eqb Bool.eqb andb forallb fst snd];
    unfold parseCreateReactApp, parseRunReactApp, parseRunCommand,
      parseGetProcessOutput, parseStopProcess, parseEditFile, parseReadFile,
      parseInstallPackage, Zod.object;
    field_cases; reflexivity.
Qed.

Lemma validation_agrees_with_listing_witness :
  accepted
    (route "install-package"
       (Some (Js.JObj [("packageName", Js.JStr "left-pad"); ("dev", Js.JBool true);
                       ("registry", Js.JNull)]))) =
  follows
    {| tool_name := "install-package";
       tool_properties := [("packageName", "string"); ("directory", "string");
                           ("dev", "boolean")];
       tool_required := ["packageName"] |}
    [("packageName", Js.JStr "left-pad"); ("dev", Js.JBool true); ("registry", Js.JNull)].
Proof.
  apply (validation_agrees_with_listing
           {| tool_name := "install-package";
              tool_properties := [("packageName", "string"); ("directory", "string");
                                  ("dev", "boolean")];
              tool_required := ["packageName"] |}
           (Some [("packageName", Js.JStr "left-pad"); ("dev", Js.JBool true);
                  ("registry", Js.JNull)])).
  simpl. tauto.
Defined.

(** X22.  The call-tool handler knows exactly the tools the list-tools
    handler advertises: a call is refused as [Unknown tool] if and only if
    its name is not the name of a listed tool (names are compared case by
    case, character by character). *)
Theorem unknown_tool_iff_not_listed name args :
  route name args = inl (UnknownTool name) <->
  ~ In name (map tool_name listed_tools).
Proof.
  unfold route. cbn [map listed_tools tool_name].
  repeat match goal with
         | |- context [String.eqb name ?k] =>
             destruct (String.eqb_spec name k) as [->|?]
         end;
    try (split; [intros H; exfalso; revert H;
                 first [apply parsed_known | discriminate]
                | intros H; exfalso; apply H; simpl; tauto]).
  split; [|reflexivity]. intros _. simpl. intuition congruence.
Qed.
